(** * LinkedIn assistant: intent classification, job search and response
      formatting

    A shallow embedding of [app/openai_service.py],
    [app/linkedin_service_http.py], the message and command handlers of
    [app/telegram_bot.py] and the validation of [app/config.py], with the
    properties of the classification and formatting pipeline proved over
    it.

    Conventions.
    - A Python [str] is a list of Unicode code points ([str]), so that
      [len] and slicing count characters, as Python does.  Literals are
      written as UTF-8 text and decoded by [U].
    - A Python [int] is a [Z]; a [float] is a binary64 [float].
    - A [dict] is a [gmap]; JSON objects are [gmap str json].
    - Code that can raise returns [exc A]; [try ... except Exception] is a
      match on it.
    - Calls that leave the process (the chat-completion endpoint, the HTTP
      POST, [json.loads], the field validators of pydantic) are parameters
      of the sections that use them. *)

From Stdlib Require Import ZArith NArith String Ascii List Floats DecimalString.
From stdpp Require Import base option list gmap.

Set Warnings "-register-all".
Local Open Scope Z_scope.

(** ** Python values *)

Module Py.

(** A code point, and a Python string. *)
Definition char := N.
Definition str := list N.

(** UTF-8 decoding of a literal: [need] continuation bytes are still
    expected and [acc] holds the bits read so far. *)
Fixpoint utf8_decode (bs : list N) (need : nat) (acc : N) : str :=
  match bs with
  | [] => []
  | b :: bs' =>
      if (b <? 128)%N then b :: utf8_decode bs' 0 0%N
      else if (b <? 192)%N then
        let acc' := (acc * 64 + (b - 128))%N in
        match need with
        | O => utf8_decode bs' 0 0%N
        | S O => acc' :: utf8_decode bs' 0 0%N
        | S n => utf8_decode bs' n acc'
        end
      else if (b <? 224)%N then utf8_decode bs' 1 (b - 192)%N
      else if (b <? 240)%N then utf8_decode bs' 2 (b - 224)%N
      else utf8_decode bs' 3 (b - 240)%N
  end.

Definition U (s : string) : str :=
  utf8_decode (map N_of_ascii (list_ascii_of_string s)) 0 0%N.
Arguments U s%_string : simpl never.

(** The newline and the double quote character. *)
Definition NL : str := [10%N].
Definition QUOTE : str := [34%N].

(** [str(n)] for an int, also its rendering inside an f-string. *)
Definition str_of_Z (z : Z) : str :=
  map N_of_ascii (list_ascii_of_string (NilZero.string_of_int (Z.to_int z))).

Arguments str_of_Z z : simpl never.

(** [sep.join(parts)] *)
Fixpoint join (sep : str) (parts : list str) : str :=
  match parts with
  | [] => []
  | [p] => p
  | p :: ps => p ++ sep ++ join sep ps
  end.

(** Truth value of a string and of a list: non-empty. *)
Definition truthy {A} (l : list A) : bool :=
  match l with [] => false | _ => true end.

(** An optional string or list ([None], or a key that is absent, is
    [None]) that is truthy: there and not empty. *)
Definition get_truthy {A} (o : option (list A)) : option (list A) :=
  match o with
  | Some v => if truthy v then Some v else None
  | None => None
  end.

(** [l[:n]] for any int [n]: a negative [n] counts from the end. *)
Definition slice_to {A} (l : list A) (n : Z) : list A :=
  if n <? 0 then take (length l - Z.to_nat (- n))%nat l
  else take (Z.to_nat n) l.

(** [enumerate(l, start)] *)
Fixpoint enumerate {A} (l : list A) (start : Z) : list (Z * A) :=
  match l with
  | [] => []
  | x :: l' => (start, x) :: enumerate l' (start + 1)
  end.

(** [str.isspace] on one character: the Unicode white space characters. *)
Definition isspace (c : char) : bool :=
  ((9 <=? c) && (c <=? 13) || (28 <=? c) && (c <=? 32)
   || (c =? 133) || (c =? 160) || (c =? 5760)
   || (8192 <=? c) && (c <=? 8202)
   || (c =? 8232) || (c =? 8233) || (c =? 8239) || (c =? 8287)
   || (c =? 12288))%N.

Fixpoint lstrip (s : str) : str :=
  match s with
  | c :: s' => if isspace c then lstrip s' else s
  | [] => []
  end.

(** [s.strip()] *)
Definition strip (s : str) : str := rev (lstrip (rev (lstrip s))).

(** [s.lower()], on the letters A-Z.  Python lowers every cased character;
    the code only compares the result with the literal [remote], and the
    characters outside A-Z whose lower case contains an ASCII letter (U+212A
    to k, U+0130 to i followed by U+0307) cannot produce it, so the
    comparison is the same. *)
Definition lower_char (c : char) : char :=
  if ((65 <=? c) && (c <=? 90))%N then (c + 32)%N else c.
Definition lower (s : str) : str := map lower_char s.

(** [a == b] on strings. *)
Definition str_eqb (a b : str) : bool := bool_decide (a = b).

(** [needle in hay] *)
Fixpoint startswith (hay needle : str) {struct needle} : bool :=
  match needle, hay with
  | [], _ => true
  | _ :: _, [] => false
  | n :: needle', h :: hay' => (n =? h)%N && startswith hay' needle'
  end.

Fixpoint contains (hay needle : str) : bool :=
  startswith hay needle ||
  match hay with
  | [] => false
  | _ :: hay' => contains hay' needle
  end.

(** Exceptions, by class; all are subclasses of [Exception]. *)
Inductive exn : Type :=
| APIError            (* raised by the chat-completion client *)
| RequestException    (* raised by requests.post *)
| IndexError
| JSONDecodeError
| AttributeError
| TypeError
| ValidationError.

Inductive exc (A : Type) : Type :=
| Ok (a : A)
| Raise (e : exn).
Arguments Ok {A} a.
Arguments Raise {A} e.

(** Sequencing: the first exception raised ends the computation. *)
#[export] Instance exc_ret : MRet exc := fun A a => Ok a.
#[export] Instance exc_bind : MBind exc := fun A B k m =>
  match m with
  | Ok a => k a
  | Raise e => Raise e
  end.

(** [try: body except Exception: handler] *)
Definition try_except {A} (body : exc A) (handler : exn -> A) : A :=
  match body with
  | Ok a => a
  | Raise e => handler e
  end.

Definition of_option {A} (e : exn) (o : option A) : exc A :=
  match o with
  | Some a => Ok a
  | None => Raise e
  end.

End Py.

Import Py.

(** JSON values as [json.loads] and [response.json()] produce them. *)
Inductive json : Type :=
| JNull
| JBool (b : bool)
| JInt (z : Z)
| JFloat (f : float)
| JStr (s : str)
| JArr (l : list json)
| JObj (o : gmap str json).

(** Truth value of a JSON value ([if v:]). *)
Definition json_truthy (v : json) : bool :=
  match v with
  | JNull => false
  | JBool b => b
  | JInt z => negb (z =? 0)
  | JFloat f => negb (PrimFloat.eqb f 0%float)
  | JStr s => truthy s
  | JArr l => truthy l
  | JObj o => negb (size o =? 0)%nat
  end.

(** [d.get(k)] on a parsed value: only a dict has [get]. *)
Definition json_get (v : json) (k : str) : exc (option json) :=
  match v with
  | JObj o => Ok (o !! k)
  | _ => Raise AttributeError
  end.

(** ** Response formatting ([OpenAIService]) *)

Module Format.

(** *** format_profile_response *)

(** The profile dictionary, with the value types of the data model.  A key
    that is absent is [None]. *)
Record ProfileData := {
  error : option str;
  headline : option str;
  summary : option str;
  experience : option (list (gmap str str));
  education : option (list (gmap str str))
}.

Definition profile_header : str := U "📋 Ваш профиль LinkedIn:" ++ NL.

Definition headline_part (h : str) : str := U "🎯 " ++ h ++ NL.

Definition summary_part (s : str) : str :=
  NL ++ U "📝 О себе:" ++ NL ++ take 300 s ++ U "..." ++ NL.

Definition experience_line (exp : gmap str str) : str :=
  let title := default [] (exp !! U "title") in
  let company := default [] (exp !! U "companyName") in
  let duration := default [] (exp !! U "duration") in
  U "• " ++ title ++ U " в " ++ company ++ U " (" ++ duration ++ U ")".

Definition education_line (edu : gmap str str) : str :=
  let school :=
    default (default [] (edu !! U "school")) (edu !! U "schoolName") in
  let degree := default [] (edu !! U "degree") in
  let field := default [] (edu !! U "fieldOfStudy") in
  strip (U "• " ++ school ++ U ": " ++ degree ++ U " " ++ field).

Definition format_profile_parts (profile_data : ProfileData) : list str :=
  [profile_header]
  ++ match get_truthy (headline profile_data) with
     | Some h => [headline_part h]
     | None => []
     end
  ++ match get_truthy (summary profile_data) with
     | Some s => [summary_part s]
     | None => []
     end
  ++ match get_truthy (experience profile_data) with
     | Some exps =>
         (NL ++ U "💼 Опыт работы:") :: map experience_line (slice_to exps 3)
     | None => []
     end
  ++ match get_truthy (education profile_data) with
     | Some edus =>
         (NL ++ NL ++ U "🎓 Образование:") :: map education_line (slice_to edus 2)
     | None => []
     end.

Definition format_profile_response (profile_data : ProfileData) : str :=
  join NL (format_profile_parts profile_data).

(** *** format_jobs_response *)

Definition no_results : str :=
  U "😔 К сожалению, по вашему запросу не найдено подходящих вакансий. Попробуйте изменить параметры поиска.".

Definition found_header (total : nat) : str :=
  U "💼 Найдено вакансий: " ++ str_of_Z (Z.of_nat total) ++ NL.

Definition showing_note (limit : Z) (total : nat) : str :=
  U "Показываю первые " ++ str_of_Z limit ++ U " из "
    ++ str_of_Z (Z.of_nat total) ++ U ":" ++ NL.

Definition narrow_hint : str :=
  NL ++ U "💡 Чтобы увидеть больше вакансий, уточните запрос (например, добавьте локацию или навыки).".

Definition title_line (idx : Z) (title : str) : str :=
  str_of_Z idx ++ U ". 🏢 " ++ title.
Definition company_line (company : str) : str := U "   Компания: " ++ company.
Definition location_line (location : str) : str := U "   📍 " ++ location.
Definition type_line (job_type : str) : str := U "   ⏰ " ++ job_type.
Definition description_line (description : str) : str :=
  U "   📄 " ++ strip (take 150 description) ++ U "...".
Definition url_line (url : str) : str := U "   🔗 " ++ url.

(** The optional lines of an entry. *)
Definition type_lines (job : gmap str str) : list str :=
  let job_type := default [] (job !! U "type") in
  if truthy job_type then [type_line job_type] else [].

Definition description_lines (job : gmap str str) : list str :=
  match get_truthy (job !! U "description") with
  | Some d => [description_line d]
  | None => []
  end.

Definition url_lines (job : gmap str str) : list str :=
  let url := default [] (job !! U "url") in
  if truthy url then [url_line url] else [].

(** The body of the loop: what one job appends to [response_parts]. *)
Definition render_job (idx : Z) (job : gmap str str) : list str :=
  let title := default (U "Без названия") (job !! U "title") in
  let company := default (U "Компания не указана") (job !! U "company") in
  let location := default (U "Локация не указана") (job !! U "location") in
  [title_line idx title; company_line company; location_line location]
  ++ type_lines job
  ++ description_lines job
  ++ url_lines job
  ++ [[]].

Definition render_jobs (shown : list (gmap str str)) : list str :=
  concat (map (fun '(idx, job) => render_job idx job) (enumerate shown 1)).

(** [len(jobs) > limit] *)
Definition over_limit (jobs : list (gmap str str)) (limit : Z) : bool :=
  limit <? Z.of_nat (length jobs).

(** [response_parts] when [jobs] is not empty. *)
Definition format_jobs_parts (jobs : list (gmap str str)) (limit : Z)
  : list str :=
  [found_header (length jobs)]
  ++ (if over_limit jobs limit then [showing_note limit (length jobs)] else [])
  ++ render_jobs (slice_to jobs limit)
  ++ (if over_limit jobs limit then [narrow_hint] else []).

Definition format_jobs_response (jobs : list (gmap str str)) (limit : Z)
  : str :=
  if truthy jobs then join NL (format_jobs_parts jobs limit)
  else no_results.

(** The default of the [limit] parameter. *)
Definition default_limit : Z := 5.

End Format.


(** ** External collaborators *)

(** Python's [str(v)] of a value that is not text is its [repr]; the
    rendering of numbers and containers is left to the interpreter. *)
Class Interpreter := {
  py_repr : json -> str;
  (** [json.loads(text)]; raises on text that is not JSON *)
  json_loads : str -> exc json;
  (** [str(e)] of the exception that was raised *)
  exn_str : exn -> str
}.

Definition py_str `{Interpreter} (v : json) : str :=
  match v with
  | JStr s => s
  | JNull => U "None"
  | JBool true => U "True"
  | JBool false => U "False"
  | JInt z => str_of_Z z
  | _ => py_repr v
  end.

(** [d.get(k, default)] on a parsed value. *)
Definition json_get_default (v : json) (k : str) (dflt : json) : exc json :=
  match v with
  | JObj o => Ok (default dflt (o !! k))
  | _ => Raise AttributeError
  end.

(** The field validators of pydantic for [str] and [float]: which values
    they accept besides a string, respectively a number, depends on the
    version of the library. [None] is a validation error. *)
Class Pydantic := {
  validate_str : json -> option str;
  validate_float : json -> option float
}.

(** ** Job search ([LinkedInServiceHTTP]) *)

Module LinkedIn.

(** What [requests.post] returns: the status and the outcome of
    [response.json()]. *)
Record Response := {
  status_code : Z;
  response_json : exc json;
  text : str
}.

(** [requests.post(url, headers=self.headers, json=payload, timeout=30)];
    the headers are fixed by the service. *)
Class Requests := {
  requests_post : str -> json -> exc Response
}.

Definition base_url : str := U "https://ligo.ertiqah.com/api/mcp".

Definition remote_modifier : str := U "с возможностью удалённой работы".
Definition location_filter (location : str) : str :=
  U "в локации " ++ location.

(** The part of [search_parts] that the location adds. *)
Definition location_parts (location : option str) : list str :=
  match get_truthy location with
  | Some loc =>
      if str_eqb (lower loc) (U "remote") then [remote_modifier]
      else [location_filter loc]
  | None => []
  end.

Definition keyword_parts (keywords : option (list str)) : list str :=
  match get_truthy keywords with
  | Some kws => [U "с навыками: " ++ join (U ", ") kws]
  | None => []
  end.

(** [search_query]: the parts joined by one space. *)
Definition build_query (query : str) (location : option str)
    (keywords : option (list str)) : str :=
  join (U " ")
    ([U "Найди вакансии для позиции " ++ query]
     ++ location_parts location ++ keyword_parts keywords).

(** The request body. *)
Definition payload (search_query : str) : json :=
  JObj (<[U "query" := JStr search_query]>
        (<[U "conversation_history" := JArr []]> ∅)).

(** The single informational job made of the reply. *)
Definition informational_job `{Interpreter} (query : str)
    (location : option str) (reply : json) : gmap str str :=
  <[U "title" := U "Результаты поиска: " ++ query]>
  (<[U "company" := U "LinkedIn"]>
  (<[U "location" := default (U "Не указано") (get_truthy location)]>
  (<[U "type" := U "Информация из профиля"]>
  (<[U "description" := py_str reply]>
  (<[U "url" := U "https://www.linkedin.com/jobs/"]> ∅))))).

Section SearchJobs.
Context `{Interpreter} `{Requests}.

(** The body of the [try] block. *)
Definition search_jobs_body (query : str) (location : option str)
    (keywords : option (list str)) : exc (list (gmap str str)) :=
  let search_query := build_query query location keywords in
  response ← requests_post (base_url ++ U "/analyze-linkedin-chat")
                           (payload search_query);
  if status_code response =? 200 then
    data ← response_json response;
    reply ← json_get data (U "reply");
    match reply with
    | Some r =>
        if json_truthy r then mret [informational_job query location r]
        else mret []
    | None => mret []
    end
  else mret [].

Definition search_jobs (query : str) (location : option str)
    (keywords : option (list str)) : list (gmap str str) :=
  try_except (search_jobs_body query location keywords) (fun _ => []).

End SearchJobs.

(** *** get_my_profile *)

(** The result of a fetch that failed: the error and no content. *)
Definition failed_profile (error : json) : gmap str json :=
  <[U "error" := error]>
  (<[U "headline" := JStr []]>
  (<[U "summary" := JStr []]>
  (<[U "experience" := JArr []]>
  (<[U "education" := JArr []]> ∅)))).

Definition http_error (response : Response) : json :=
  JStr (U "HTTP " ++ str_of_Z (status_code response) ++ U ": "
        ++ text response).

(** [except requests.exceptions.RequestException] comes first.  Which
    class a failure of the transport or of [response.json()] belongs to is
    told by the exception that the call raises. *)
Definition is_request_exception (e : exn) : bool :=
  match e with
  | RequestException => true
  | _ => false
  end.

Section Profile.
Context `{Interpreter} `{Requests}.

Definition get_my_profile_body : exc (gmap str json) :=
  response ← requests_post (base_url ++ U "/linkedin/profile") (JObj ∅);
  if status_code response =? 200 then
    data ← response_json response;
    success ← json_get data (U "success");
    if json_truthy (default JNull success) then
      profile ← json_get_default data (U "profile") (JObj ∅);
      headline ← json_get_default profile (U "headline") (JStr []);
      summary ← json_get_default profile (U "summary") (JStr []);
      experience ← json_get_default profile (U "experience") (JArr []);
      education ← json_get_default profile (U "education") (JArr []);
      mret (<[U "headline" := headline]>
            (<[U "summary" := summary]>
            (<[U "experience" := experience]>
            (<[U "education" := education]> ∅))))
    else
      error ← json_get_default data (U "error")
                (JStr (U "Failed to fetch profile"));
      mret (failed_profile error)
  else mret (failed_profile (http_error response)).

Definition get_my_profile : gmap str json :=
  try_except get_my_profile_body (fun e =>
    if is_request_exception e
    then failed_profile (JStr (U "Network error: " ++ exn_str e))
    else failed_profile (JStr (U "Unexpected error: " ++ exn_str e))).

(** *** set_linkedin_url and refresh_profile

    The two methods have the same body up to the endpoint, the request
    body and the message used when the reply has none. *)
Definition post_action (endpoint : str) (request : json)
    (default_message : str) : gmap str json :=
  try_except
    (response ← requests_post (base_url ++ endpoint) request;
     if status_code response =? 200 then
       data ← response_json response;
       success ← json_get_default data (U "success") (JBool false);
       message ← json_get_default data (U "message") (JStr default_message);
       error ← json_get data (U "error");
       mret (<[U "success" := success]>
             (<[U "message" := message]>
             (<[U "error" := default JNull error]> ∅)))
     else
       mret (<[U "success" := JBool false]>
             (<[U "error" := http_error response]> ∅)))
    (fun e => <[U "success" := JBool false]>
              (<[U "error" := JStr (exn_str e)]> ∅)).

Definition set_linkedin_url (linkedin_url : str) : gmap str json :=
  post_action (U "/linkedin/set-url")
    (JObj (<[U "linkedin_url" := JStr linkedin_url]> ∅)) (U "URL set").

Definition refresh_profile : gmap str json :=
  post_action (U "/linkedin/refresh-profile") (JObj ∅)
    (U "Profile refreshed").

End Profile.

End LinkedIn.

(** ** Intent classification ([OpenAIService.classify_intent]) *)

Module Classify.

Record JobSearchParams := {
  role : str;
  location : option str;
  keywords : option (list str)
}.

Record IntentResult := {
  intent : str;
  confidence : float;
  job_params : option JobSearchParams
}.

(** The part of the chat completion that the code reads:
    [response.choices[0].message.function_call.arguments]. *)
Record FunctionCall := { name : str; arguments : str }.
Record Message := { function_call : option FunctionCall }.
Record Choice := { message : Message }.
Record ChatCompletion := { choices : list Choice }.

(** [self.client.chat.completions.create(...)]: everything in the request
    but the user message is fixed. *)
Class OpenAIClient := {
  chat_completions_create : str -> exc ChatCompletion
}.

(** A value of [result_dict]: what [json.loads] produced, or the
    [JobSearchParams] object stored over it. *)
Inductive value : Type :=
| VJson (v : json)
| VJobSearchParams (p : JobSearchParams).

Section Classification.
Context `{Interpreter} `{Pydantic} `{OpenAIClient}.

(** An optional field: absent and [null] are [None]. *)
Definition optional {A} (validate : json -> option A) (field : option json)
  : option (option A) :=
  match field with
  | None | Some JNull => Some None
  | Some v => Some <$> validate v
  end.

(** [List[str]] *)
Definition validate_str_list (v : json) : option (list str) :=
  match v with
  | JArr l => mapM validate_str l
  | _ => None
  end.

(** Validation of the fields of [JobSearchParams]; unknown keys are
    ignored. *)
Definition validate_JobSearchParams (kwargs : gmap str json)
  : option JobSearchParams :=
  r ← kwargs !! U "role" ≫= validate_str;
  loc ← optional validate_str (kwargs !! U "location");
  kws ← optional validate_str_list (kwargs !! U "keywords");
  Some {| role := r; location := loc; keywords := kws |}.

(** [JobSearchParams] built from the keyword arguments [v], which has to
    be a mapping. *)
Definition JobSearchParams_init (v : json) : exc JobSearchParams :=
  match v with
  | JObj kwargs => of_option ValidationError (validate_JobSearchParams kwargs)
  | _ => Raise TypeError
  end.

(** The [job_params] field of [IntentResult]: an object is taken as it
    is, a dict is validated as [JobSearchParams]. *)
Definition validate_job_params (field : option value)
  : option (option JobSearchParams) :=
  match field with
  | None | Some (VJson JNull) => Some None
  | Some (VJobSearchParams p) => Some (Some p)
  | Some (VJson (JObj kwargs)) => Some <$> validate_JobSearchParams kwargs
  | Some (VJson _) => None
  end.

(** A required field of [IntentResult]. *)
Definition required {A} (validate : json -> option A) (field : option value)
  : option A :=
  match field with
  | Some (VJson v) => validate v
  | _ => None
  end.

(** [IntentResult] built from the keyword arguments [result_dict]. *)
Definition IntentResult_init (result_dict : gmap str value)
  : exc IntentResult :=
  of_option ValidationError
    (i ← required validate_str (result_dict !! U "intent");
     c ← required validate_float (result_dict !! U "confidence");
     p ← validate_job_params (result_dict !! U "job_params");
     Some {| intent := i; confidence := c; job_params := p |}).

(** [if result_dict.get(k): result_dict[k] = JobSearchParams(...)] *)
Definition convert_job_params (parsed : json) : exc (gmap str value) :=
  match parsed with
  | JObj result_dict =>
      match result_dict !! U "job_params" with
      | Some v =>
          if json_truthy v then
            p ← JobSearchParams_init v;
            mret (<[U "job_params" := VJobSearchParams p]>
                    (VJson <$> result_dict))
          else mret (VJson <$> result_dict)
      | None => mret (VJson <$> result_dict)
      end
  | _ => Raise AttributeError   (* only a dict has [get] *)
  end.

Definition fallback : IntentResult :=
  {| intent := U "UNKNOWN"; confidence := 0.5%float; job_params := None |}.

Definition on_error : IntentResult :=
  {| intent := U "UNKNOWN"; confidence := 0%float; job_params := None |}.

(** The body of the [try] block. *)
Definition classify_intent_body (user_message : str) : exc IntentResult :=
  response ← chat_completions_create user_message;
  choice ← of_option IndexError (head (choices response));
  match function_call (message choice) with
  | Some fc =>
      if truthy (arguments fc) then
        parsed ← json_loads (arguments fc);
        result_dict ← convert_job_params parsed;
        IntentResult_init result_dict
      else mret fallback
  | None => mret fallback
  end.

Definition classify_intent (user_message : str) : IntentResult :=
  try_except (classify_intent_body user_message) (fun _ => on_error).

End Classification.

End Classify.

(** ** Dispatch of a classified message ([TelegramBot]) *)

Module Bot.

Import Format Classify.

(** What a handler does to the outside, in order.  The calls of the
    services are recorded next to the messages sent to the chat. *)
Inductive event : Type :=
| SendAction (action : str)
| ReplyText (text : str)
| CallClassifyIntent (user_message : str)
| CallGetMyProfile
| CallSearchJobs (query : str) (location : option str)
                 (keywords : option (list str))
| CallSetLinkedinUrl (linkedin_url : str)
| CallRefreshProfile.

(** The profile fetch of the service: it catches its own failures and
    reports them in the [error] field. *)
Class ProfileService := {
  get_my_profile : ProfileData
}.

(** A handler extends the trace of the chat.  Sending to the chat is taken
    to succeed, so no handler raises: the services it calls return a value
    on every input. *)
Definition handler := list event -> list event.

Definition emit (e : event) : handler := fun trace => trace ++ [e].
Definition reply_text (text : str) : handler := emit (ReplyText text).

Definition clarification_request : str :=
  U "🤔 Не могу понять, какую вакансию вы ищете. "
  ++ U "Пожалуйста, укажите должность или роль." ++ NL ++ NL
  ++ U "Например: 'Найди вакансии Python разработчика'".

Definition capabilities : str :=
  U "🤷‍♂️ Извините, я пока умею только:" ++ NL ++ NL
  ++ U "📋 Показывать информацию о вашем профиле LinkedIn" ++ NL
  ++ U "💼 Искать вакансии на LinkedIn" ++ NL ++ NL
  ++ U "Пожалуйста, переформулируйте ваш запрос." ++ NL ++ NL
  ++ U "Примеры:" ++ NL
  ++ U "• " ++ QUOTE ++ U "Покажи мой профиль" ++ QUOTE ++ NL
  ++ U "• " ++ QUOTE ++ U "Найди вакансии Python разработчика" ++ QUOTE ++ NL
  ++ U "• " ++ QUOTE ++ U "Удалённая работа для дата сайентиста" ++ QUOTE.

Definition profile_failure (error : str) : str :=
  U "❌ Не удалось получить профиль: " ++ error ++ NL ++ NL
  ++ U "Убедитесь, что вы настроили LinkedIn URL через команду set_linkedin_url.".

Definition searching_text (job_params : JobSearchParams) : str :=
  U "🔍 Ищу вакансии: " ++ role job_params
  ++ match get_truthy (location job_params) with
     | Some loc => U " (" ++ loc ++ U ")"
     | None => []
     end.

(** The texts of the two commands. *)
Definition profile_url_prefix : str := U "https://www.linkedin.com/in/".

Definition seturl_usage : str :=
  U "❌ Укажите LinkedIn URL" ++ NL ++ NL
  ++ U "Использование: /seturl https://www.linkedin.com/in/your-profile"
  ++ NL ++ NL
  ++ U "Пример: /seturl https://www.linkedin.com/in/johnsmith".

Definition seturl_bad_format : str :=
  U "❌ Неверный формат URL" ++ NL ++ NL
  ++ U "URL должен начинаться с: https://www.linkedin.com/in/" ++ NL ++ NL
  ++ U "Пример: https://www.linkedin.com/in/johnsmith".

Definition seturl_done : str :=
  U "✅ LinkedIn URL успешно установлен!" ++ NL ++ NL
  ++ U "Теперь вы можете использовать:" ++ NL
  ++ U "• 'Покажи мой профиль'" ++ NL
  ++ U "• 'Найди вакансии'".

Definition refresh_done : str :=
  U "✅ Профиль успешно обновлён!" ++ NL ++ NL
  ++ U "Теперь попробуйте: 'Покажи мой профиль'".

(** [result.get(k, default)] rendered inside an f-string. *)
Definition error_msg `{Interpreter} (result : gmap str json) : str :=
  py_str (default (JStr (U "Неизвестная ошибка")) (result !! U "error")).

(** [result.get(k)] is truthy *)
Definition succeeded (result : gmap str json) : bool :=
  json_truthy (default JNull (result !! U "success")).

Section Handlers.
Context `{Interpreter} `{Pydantic} `{OpenAIClient}
        `{LinkedIn.Requests} `{ProfileService}.

(** [context.args] are the words after the command. *)
Definition seturl_command (args : list str) : handler := fun trace =>
  match args with
  | [] => reply_text seturl_usage trace
  | linkedin_url :: _ =>
      if negb (startswith linkedin_url profile_url_prefix) then
        reply_text seturl_bad_format trace
      else
        let trace :=
          reply_text (U "⏳ Устанавливаю LinkedIn URL: " ++ linkedin_url)
                     trace in
        let trace := emit (CallSetLinkedinUrl linkedin_url) trace in
        let result := LinkedIn.set_linkedin_url linkedin_url in
        if succeeded result then reply_text seturl_done trace
        else
          reply_text (U "❌ Не удалось установить URL: " ++ error_msg result)
                     trace
  end.

Definition refresh_command : handler := fun trace =>
  let trace := reply_text (U "🔄 Обновляю данные профиля LinkedIn...") trace in
  let trace := emit CallRefreshProfile trace in
  let result := LinkedIn.refresh_profile in
  if succeeded result then reply_text refresh_done trace
  else
    reply_text (U "❌ Не удалось обновить профиль: " ++ error_msg result)
               trace.

Definition _handle_profile_request : handler := fun trace =>
  let trace := reply_text (U "🔍 Получаю информацию о вашем профиле...") trace in
  let trace := emit CallGetMyProfile trace in
  let profile_data := get_my_profile in
  match get_truthy (error profile_data) with
  | Some err => reply_text (profile_failure err) trace
  | None => reply_text (format_profile_response profile_data) trace
  end.

Definition _handle_jobs_request (intent_result : IntentResult) : handler :=
  fun trace =>
  match job_params intent_result with
  | None => reply_text clarification_request trace
  | Some job_params =>
      let trace := reply_text (searching_text job_params ++ U "...") trace in
      let trace :=
        emit (CallSearchJobs (role job_params) (location job_params)
                             (keywords job_params)) trace in
      let jobs :=
        LinkedIn.search_jobs (role job_params) (location job_params)
                             (keywords job_params) in
      let response := format_jobs_response jobs default_limit in
      reply_text response trace
  end.

Definition _handle_unknown_request : handler := reply_text capabilities.

Definition handle_message (user_message : str) : handler := fun trace =>
  let trace := emit (SendAction (U "typing")) trace in
  let trace := emit (CallClassifyIntent user_message) trace in
  let intent_result := classify_intent user_message in
  if str_eqb (intent intent_result) (U "PROFILE") then
    _handle_profile_request trace
  else if str_eqb (intent intent_result) (U "JOBS") then
    _handle_jobs_request intent_result trace
  else _handle_unknown_request trace.

End Handlers.

End Bot.

(** ** Configuration ([Config]) *)

Module Config.

(** The three settings that are required; [None] is a variable that is not
    set. *)
Record Settings := {
  OPENAI_API_KEY : option str;
  TELEGRAM_BOT_TOKEN : option str;
  LINKEDIN_MCP_API_KEY : option str
}.

Definition required (cls : Settings) : list (str * option str) :=
  [(U "OPENAI_API_KEY", OPENAI_API_KEY cls);
   (U "TELEGRAM_BOT_TOKEN", TELEGRAM_BOT_TOKEN cls);
   (U "LINKEDIN_MCP_API_KEY", LINKEDIN_MCP_API_KEY cls)].

(** The names whose value is not truthy. *)
Definition missing (cls : Settings) : list str :=
  fst <$> filter (fun nv => get_truthy (snd nv) = None) (required cls).

(** [validate]: [inl] is the message of the [ValueError] raised. *)
Definition validate (cls : Settings) : str + bool :=
  if truthy (missing cls) then
    inl (U "Missing required environment variables: "
         ++ join (U ", ") (missing cls))
  else inr true.

End Config.

(** * Properties *)

Import Format.

(** ** Strings and lists *)

Section PyFacts.

Lemma startswith_spec (hay needle : str) :
  startswith hay needle = true <-> exists post, hay = needle ++ post.
Proof.
  revert hay; induction needle as [|n needle IH]; intros hay; simpl.
  - split; [intros _; by exists hay | done].
  - destruct hay as [|h hay].
    + split; [done | intros [post Hpost]; discriminate].
    + rewrite andb_true_iff, N.eqb_eq, IH. split.
      * intros [-> [post ->]]. by exists post.
      * intros [post Hpost]. injection Hpost as -> ->. eauto.
Qed.

Lemma contains_spec (hay needle : str) :
  contains hay needle = true <-> exists pre post, hay = pre ++ needle ++ post.
Proof.
  induction hay as [|h hay IH]; simpl; rewrite orb_true_iff, startswith_spec.
  - split.
    + intros [[post Hpost] | ?]; [by exists [], post | done].
    + intros (pre & post & Hpost). left.
      destruct pre; [by exists post | discriminate].
  - rewrite IH. split.
    + intros [[post Hpost] | (pre & post & ->)].
      * by exists [], post.
      * by exists (h :: pre), post.
    + intros (pre & post & Hpost). destruct pre as [|c pre].
      * left. by exists post.
      * right. injection Hpost as -> ->. by exists pre, post.
Qed.

(** Every character of a substring occurs in the string. *)
Lemma contains_elem (hay needle : str) (c : char) :
  contains hay needle = true -> c ∈ needle -> c ∈ hay.
Proof.
  rewrite contains_spec. intros (pre & post & ->) Hc.
  rewrite !elem_of_app. auto.
Qed.

Lemma join_cons (sep p : str) (ps : list str) :
  ps <> [] -> join sep (p :: ps) = p ++ sep ++ join sep ps.
Proof. by destruct ps. Qed.

(** A part is a substring of the joined text. *)
Lemma join_elem (sep part : str) (parts : list str) :
  part ∈ parts -> exists pre post, join sep parts = pre ++ part ++ post.
Proof.
  induction parts as [|p ps IH]; [by rewrite elem_of_nil |].
  rewrite elem_of_cons. intros [-> | Hin].
  - destruct ps as [|p' ps].
    + exists [], []. by rewrite app_nil_r.
    + exists [], (sep ++ join sep (p' :: ps)). done.
  - destruct (IH Hin) as (pre & post & Hjoin).
    rewrite join_cons by (intros ->; by apply elem_of_nil in Hin).
    exists (p ++ sep ++ pre), post. rewrite Hjoin.
    by rewrite <- !app_assoc.
Qed.

Lemma slice_to_take {A} (l : list A) (n : Z) :
  0 <= n -> slice_to l n = take (Z.to_nat n) l.
Proof. intros Hn. unfold slice_to. by rewrite (proj2 (Z.ltb_ge n 0)). Qed.

Lemma enumerate_lookup {A} (l : list A) (start : Z) (i : nat) :
  enumerate l start !! i = (fun x => (start + Z.of_nat i, x)) <$> l !! i.
Proof.
  revert start i; induction l as [|x l IH]; intros start [|i]; simpl;
    try done.
  - by rewrite Z.add_0_r.
  - rewrite IH. destruct (l !! i); simpl; [|done].
    do 2 f_equal. lia.
Qed.

Lemma enumerate_length {A} (l : list A) (start : Z) :
  length (enumerate l start) = length l.
Proof. revert start; induction l; intros; simpl; auto. Qed.

End PyFacts.

(** ** format_jobs_response and format_profile_response *)

Section FormatFacts.

(** The office-building sign that marks the first line of an entry. *)
Definition entry_sign : char := 127970%N.

Lemma title_line_sign (idx : Z) (title : str) :
  entry_sign ∈ title_line idx title.
Proof.
  unfold title_line. rewrite !elem_of_app. right; left.
  apply (bool_decide_unpack _). by vm_compute.
Qed.

Lemma no_results_no_sign : entry_sign ∉ no_results.
Proof. apply (bool_decide_unpack _). by vm_compute. Qed.

(** The summary section as the profile formatter writes it. *)
Lemma summary_part_in (profile_data : ProfileData) (s : str) :
  summary profile_data = Some s -> s <> [] ->
  summary_part s ∈ format_profile_parts profile_data.
Proof.
  intros Hs Hne. unfold format_profile_parts. rewrite Hs.
  destruct s as [|c s]; [done |]. simpl get_truthy.
  rewrite !elem_of_app. right; right; left. by apply list_elem_of_singleton.
Qed.

End FormatFacts.

(** C8. For the empty job list [format_jobs_response] returns the fixed
    no-results message whatever [limit] is, and that message contains the
    first line of no numbered entry. *)
Theorem format_jobs_response_empty (limit : Z) :
  format_jobs_response [] limit = no_results
  /\ forall idx title,
       contains (format_jobs_response [] limit) (title_line idx title) = false.
Proof.
  split; [reflexivity |]. intros idx title.
  change (format_jobs_response [] limit) with no_results.
  apply not_true_is_false. intros E. apply no_results_no_sign.
  exact (contains_elem _ _ _ E (title_line_sign idx title)).
Qed.

(** C4. When the profile has a non-empty summary, the response contains the
    summary section: the heading, the first 300 characters of the summary
    and the three dots, which are appended whether or not the summary was
    longer than 300 characters.  A summary of 300 characters or more
    contributes exactly 300 characters, a shorter one is left whole. *)
Theorem format_profile_response_summary (profile_data : ProfileData) (s : str) :
  summary profile_data = Some s -> s <> [] ->
  contains (format_profile_response profile_data)
           (NL ++ U "📝 О себе:" ++ NL ++ take 300 s ++ U "..." ++ NL) = true
  /\ (300 <= length s -> length (take 300 s) = 300)%nat
  /\ (length s <= 300 -> take 300 s = s)%nat.
Proof.
  intros Hs Hne. split; [| split].
  - apply contains_spec. apply join_elem. by apply summary_part_in.
  - intros Hlen. rewrite length_take. lia.
  - intros Hlen. by apply take_ge.
Qed.

Definition long_summary_profile : ProfileData :=
  {| error := None; headline := None;
     summary := Some (replicate 500 120%N);
     experience := None; education := None |}.

Lemma format_profile_response_summary_witness :
  summary long_summary_profile = Some (replicate 500 120%N)
  /\ contains (format_profile_response long_summary_profile)
       (NL ++ U "📝 О себе:" ++ NL ++ take 300 (replicate 500 120%N)
           ++ U "..." ++ NL)
     = true.
Proof.
  split; [reflexivity |].
  apply (format_profile_response_summary long_summary_profile
           (replicate 500 120%N)); [reflexivity | discriminate].
Defined.

Section JobsFacts.

(** The entries of the jobs shown, one list of lines per job. *)
Definition entries_of (shown : list (gmap str str)) : list (list str) :=
  map (fun '(idx, job) => render_job idx job) (enumerate shown 1).

Lemma entries_of_lookup (shown : list (gmap str str)) (i : nat) :
  entries_of shown !! i
  = (fun job => render_job (Z.of_nat i + 1) job) <$> shown !! i.
Proof.
  unfold entries_of. rewrite list_lookup_fmap, enumerate_lookup.
  destruct (shown !! i); simpl; [|done]. do 2 f_equal. lia.
Qed.

Lemma entries_of_length (shown : list (gmap str str)) :
  length (entries_of shown) = length shown.
Proof. unfold entries_of. by rewrite length_map, enumerate_length. Qed.

(** The lines of a job that is shown are among the parts of the response. *)
Lemma render_jobs_entry (shown : list (gmap str str)) (i : nat)
    (job : gmap str str) :
  shown !! i = Some job ->
  exists pre post,
    render_jobs shown = pre ++ render_job (Z.of_nat i + 1) job ++ post.
Proof.
  intros Hi. change (render_jobs shown) with (concat (entries_of shown)).
  assert (entries_of shown !! i = Some (render_job (Z.of_nat i + 1) job))
    as Hentry by (by rewrite entries_of_lookup, Hi).
  apply list_elem_of_split_length in Hentry as (before & after & -> & _).
  exists (concat before), (concat after).
  by rewrite concat_app, concat_cons.
Qed.

Lemma over_limit_nonempty (jobs : list (gmap str str)) (limit : Z) :
  0 <= limit -> limit < Z.of_nat (length jobs) -> truthy jobs = true.
Proof. destruct jobs; simpl; [lia | done]. Qed.

End JobsFacts.

(** Seven jobs titled A to G, and three of them. *)
Definition seven_jobs : list (gmap str str) :=
  (fun c => {[ U "title" := [c] ]}) <$> [65; 66; 67; 68; 69; 70; 71]%N.
Definition three_jobs : list (gmap str str) := take 3 seven_jobs.

(** C3, as stated, fails.  With seven jobs and limit 5 the line that states
    the two counts is the second part of the response, ahead of the entries;
    the part that ends the response is the hint alone, which mentions neither
    7 nor 5.  With a negative limit, which is more than no list has, the
    slice drops jobs from the end: limit -1 shows two of three jobs. *)
Lemma format_jobs_response_counts_not_trailing :
  format_jobs_parts seven_jobs 5 !! 1%nat
    = Some (U "Показываю первые 5 из 7:" ++ NL)
  /\ last (format_jobs_parts seven_jobs 5) = Some narrow_hint
  /\ contains narrow_hint (U "7") = false
  /\ contains narrow_hint (U "5") = false
  /\ over_limit three_jobs (-1) = true
  /\ length (entries_of (slice_to three_jobs (-1))) = 2%nat.
Proof.
  split; [| split; [| split; [| split; [| split]]]]; vm_compute; reflexivity.
Qed.

(** C3, amended.  For a limit that is not negative and a list of more than
    [limit] jobs, the response is the header with the total, then the line
    stating [limit] and the total, then exactly [limit] entries, the i-th
    numbered i+1 and rendering the i-th job of the input, then the hint to
    narrow the query. *)
Theorem format_jobs_response_over_limit (jobs : list (gmap str str))
    (limit : Z) :
  0 <= limit -> limit < Z.of_nat (length jobs) ->
  exists entries : list (list str),
    format_jobs_response jobs limit
    = join NL ([found_header (length jobs);
                U "Показываю первые " ++ str_of_Z limit ++ U " из "
                  ++ str_of_Z (Z.of_nat (length jobs)) ++ U ":" ++ NL]
               ++ concat entries ++ [narrow_hint])
    /\ Z.of_nat (length entries) = limit
    /\ forall (i : nat) job,
         jobs !! i = Some job -> Z.of_nat i < limit ->
         entries !! i = Some (render_job (Z.of_nat i + 1) job).
Proof.
  intros Hlimit Hover. exists (entries_of (slice_to jobs limit)).
  rewrite slice_to_take by done. split; [| split].
  - unfold format_jobs_response, format_jobs_parts.
    rewrite (over_limit_nonempty jobs limit) by done.
    unfold over_limit. rewrite (proj2 (Z.ltb_lt _ _) Hover).
    by rewrite slice_to_take.
  - rewrite entries_of_length, length_take_le; lia.
  - intros i job Hjob Hi.
    rewrite entries_of_lookup, lookup_take_lt by lia. by rewrite Hjob.
Qed.

Lemma format_jobs_response_over_limit_witness :
  exists entries : list (list str),
    format_jobs_response seven_jobs 5
    = join NL ([found_header 7; U "Показываю первые 5 из 7:" ++ NL]
               ++ concat entries ++ [narrow_hint])
    /\ Z.of_nat (length entries) = 5
    /\ forall (i : nat) job,
         seven_jobs !! i = Some job -> Z.of_nat i < 5 ->
         entries !! i = Some (render_job (Z.of_nat i + 1) job).
Proof.
  apply (format_jobs_response_over_limit seven_jobs 5); [lia | reflexivity].
Defined.

(** C5, as stated, fails.  A job with no field at all is rendered as the
    three lines of title, company and location, each with its placeholder,
    and the empty line: the signs that introduce the type, the description
    and the link occur nowhere in the response, so these three fields are
    left out rather than replaced by a placeholder. *)
Lemma format_jobs_response_absent_fields_left_out :
  render_job 1 ∅
    = [U "1. 🏢 Без названия"; U "   Компания: Компания не указана";
       U "   📍 Локация не указана"; []]
  /\ contains (format_jobs_response [∅] 5) (U "⏰") = false
  /\ contains (format_jobs_response [∅] 5) (U "📄") = false
  /\ contains (format_jobs_response [∅] 5) (U "🔗") = false.
Proof. split; [| split; [| split]]; vm_compute; reflexivity. Qed.

(** C5, amended.  Every job that is shown is rendered, whichever fields it
    has: its lines are among the parts of the response.  An absent title,
    company or location is replaced by its placeholder text; an absent type,
    description or url adds no line, and with all three absent the entry is
    the three lines and the empty line that closes it. *)
Theorem render_job_absent_fields (jobs : list (gmap str str)) (limit : Z)
    (i : nat) (job : gmap str str) :
  slice_to jobs limit !! i = Some job ->
  let idx := Z.of_nat i + 1 in
  (exists pre post,
     format_jobs_parts jobs limit = pre ++ render_job idx job ++ post)
  /\ (job !! U "title" = None ->
      render_job idx job !! 0%nat
      = Some (str_of_Z idx ++ U ". 🏢 " ++ U "Без названия"))
  /\ (job !! U "company" = None ->
      render_job idx job !! 1%nat
      = Some (U "   Компания: " ++ U "Компания не указана"))
  /\ (job !! U "location" = None ->
      render_job idx job !! 2%nat
      = Some (U "   📍 " ++ U "Локация не указана"))
  /\ (job !! U "type" = None ->
      drop 3 (render_job idx job)
      = description_lines job ++ url_lines job ++ [[]])
  /\ (job !! U "description" = None ->
      drop 3 (render_job idx job) = type_lines job ++ url_lines job ++ [[]])
  /\ (job !! U "url" = None ->
      drop 3 (render_job idx job)
      = type_lines job ++ description_lines job ++ [[]])
  /\ (job !! U "type" = None -> job !! U "description" = None ->
      job !! U "url" = None -> length (render_job idx job) = 4%nat).
Proof.
  intros Hshown idx. split.
  - destruct (render_jobs_entry _ _ _ Hshown) as (pre & post & Hentry).
    unfold format_jobs_parts. rewrite Hentry.
    exists ([found_header (length jobs)]
            ++ (if over_limit jobs limit
                then [showing_note limit (length jobs)] else []) ++ pre),
           (post ++ (if over_limit jobs limit then [narrow_hint] else [])).
    by rewrite <- !app_assoc.
  - unfold render_job, type_lines, description_lines, url_lines.
    unfold str in *.
    split; [| split; [| split; [| split; [| split; [| split]]]]].
    + intros Habsent. rewrite Habsent. reflexivity.
    + intros Habsent. rewrite Habsent. reflexivity.
    + intros Habsent. rewrite Habsent. reflexivity.
    + intros Habsent. rewrite Habsent. reflexivity.
    + intros Habsent. rewrite Habsent. reflexivity.
    + intros Habsent. rewrite Habsent. reflexivity.
    + intros Htype Hdescription Hurl.
      rewrite Htype, Hdescription, Hurl. reflexivity.
Qed.

Lemma render_job_absent_fields_witness :
  [∅ : gmap str str] !! 0%nat = Some ∅
  /\ render_job 1 (∅ : gmap str str) !! 0%nat
     = Some (str_of_Z 1 ++ U ". 🏢 " ++ U "Без названия")
  /\ length (render_job 1 (∅ : gmap str str)) = 4%nat.
Proof.
  pose proof (render_job_absent_fields [∅] 5 0 ∅ eq_refl) as Hjob.
  cbv zeta in Hjob.
  destruct Hjob as (_ & Htitle & _ & _ & _ & _ & _ & Hlen).
  split; [reflexivity |]. split; [by apply Htitle | by apply Hlen].
Defined.

(** ** Further properties of the formatters *)

Section FormatterFacts.

Lemma truthy_take {A} (n : nat) (l : list A) :
  truthy (take (S n) l) = truthy l.
Proof. by destruct l. Qed.

Lemma get_truthy_take {A} (n : nat) (o : option (list A)) :
  get_truthy (take (S n) <$> o) = take (S n) <$> get_truthy o.
Proof.
  destruct o as [l|]; simpl; [|done].
  rewrite truthy_take. by destruct (truthy l).
Qed.

Lemma slice_to_take_same {A} (n : nat) (l : list A) :
  slice_to (take n l) (Z.of_nat n) = slice_to l (Z.of_nat n).
Proof.
  rewrite !slice_to_take by lia. rewrite Nat2Z.id. by rewrite take_take, Nat.min_id.
Qed.

Lemma lstrip_length (s : str) : (length (lstrip s) <= length s)%nat.
Proof.
  induction s as [|c s IH]; simpl; [lia |].
  destruct (isspace c); simpl; lia.
Qed.

Lemma strip_length (s : str) : (length (strip s) <= length s)%nat.
Proof.
  unfold strip. rewrite length_rev.
  etransitivity; [apply lstrip_length |]. rewrite length_rev.
  apply lstrip_length.
Qed.

End FormatterFacts.

(** The profile with each section cut to what the formatter reads. *)
Definition shortened (profile_data : ProfileData) : ProfileData :=
  {| error := error profile_data;
     headline := headline profile_data;
     summary := take 300 <$> summary profile_data;
     experience := take 3 <$> experience profile_data;
     education := take 2 <$> education profile_data |}.

(** The profile response depends on the first 300 characters of the summary,
    the first three experience entries and the first two education entries
    only: cutting the profile to them leaves the response the same. *)
Theorem format_profile_response_shortened (profile_data : ProfileData) :
  format_profile_response (shortened profile_data)
  = format_profile_response profile_data.
Proof.
  unfold format_profile_response, format_profile_parts, shortened; simpl.
  rewrite !get_truthy_take.
  destruct (get_truthy (summary profile_data)) as [s|];
    destruct (get_truthy (experience profile_data)) as [exps|];
    destruct (get_truthy (education profile_data)) as [edus|]; simpl;
    unfold summary_part;
    rewrite ?take_take, ?Nat.min_id,
      ?(slice_to_take_same 3), ?(slice_to_take_same 2); reflexivity.
Qed.

Lemma join_header_longer (rest : list str) :
  rest <> [] -> join NL (profile_header :: rest) <> profile_header.
Proof.
  intros Hrest Heq. apply (f_equal length) in Heq.
  rewrite join_cons, !length_app in Heq by done. simpl in Heq. lia.
Qed.

(** The profile response is the header line alone exactly when no section
    has content: the headline and the summary are absent or empty, and so
    are the lists of experience and education. *)
Theorem format_profile_response_header_only (profile_data : ProfileData) :
  format_profile_response profile_data = U "📋 Ваш профиль LinkedIn:" ++ NL
  <-> get_truthy (headline profile_data) = None
      /\ get_truthy (summary profile_data) = None
      /\ get_truthy (experience profile_data) = None
      /\ get_truthy (education profile_data) = None.
Proof.
  unfold format_profile_response, format_profile_parts. split.
  - destruct (get_truthy (headline profile_data));
      destruct (get_truthy (summary profile_data));
      destruct (get_truthy (experience profile_data));
      destruct (get_truthy (education profile_data));
      intros Heq; try done; exfalso;
      by apply (join_header_longer _) in Heq.
  - by intros (-> & -> & -> & ->).
Qed.

(** A job with a description that is not empty gets a description line,
    made of the sign, at most 150 characters of the description and the
    three dots, which are there however short the description is. *)
Theorem render_job_description (idx : Z) (job : gmap str str) (d : str) :
  job !! U "description" = Some d -> d <> [] ->
  exists shown : str,
    U "   📄 " ++ shown ++ U "..." ∈ render_job idx job
    /\ shown = strip (take 150 d)
    /\ (length shown <= 150)%nat.
Proof.
  intros Hd Hne. exists (strip (take 150 d)). split; [| split; [done |]].
  - unfold render_job, description_lines. unfold str in *. rewrite Hd.
    destruct d as [|c d]; [done |]. simpl get_truthy.
    rewrite !elem_of_app. right; right; left.
    by apply list_elem_of_singleton.
  - etransitivity; [apply strip_length |]. rewrite length_take. lia.
Qed.

Lemma render_job_description_witness :
  exists shown : str,
    U "   📄 " ++ shown ++ U "..."
      ∈ render_job 1 {[ U "description" := U " Python " ]}
    /\ shown = strip (take 150 (U " Python "))
    /\ (length shown <= 150)%nat.
Proof.
  apply (render_job_description 1 {[ U "description" := U " Python " ]}
           (U " Python ")); [reflexivity | by vm_compute].
Defined.

(** The placeholders stand in for a key that is absent, not for a value
    that is empty: an empty title, company or location is written as it is,
    after its sign, while an empty type, description or url adds no line,
    as if the key were absent. *)
Theorem render_job_empty_values (idx : Z) (job : gmap str str) :
  (job !! U "title" = Some [] ->
   render_job idx job !! 0%nat = Some (str_of_Z idx ++ U ". 🏢 "))
  /\ (job !! U "company" = Some [] ->
      render_job idx job !! 1%nat = Some (U "   Компания: "))
  /\ (job !! U "location" = Some [] ->
      render_job idx job !! 2%nat = Some (U "   📍 "))
  /\ (job !! U "type" = Some [] ->
      drop 3 (render_job idx job)
      = description_lines job ++ url_lines job ++ [[]])
  /\ (job !! U "description" = Some [] ->
      drop 3 (render_job idx job) = type_lines job ++ url_lines job ++ [[]])
  /\ (job !! U "url" = Some [] ->
      drop 3 (render_job idx job)
      = type_lines job ++ description_lines job ++ [[]]).
Proof.
  unfold render_job, type_lines, description_lines, url_lines,
    title_line, company_line, location_line.
  unfold str in *.
  split; [| split; [| split; [| split; [| split]]]];
    intros Hempty; rewrite Hempty; simpl; by rewrite ?app_nil_r.
Qed.

Lemma render_job_empty_values_witness :
  render_job 1 {[ U "title" := [] ]} !! 0%nat = Some (str_of_Z 1 ++ U ". 🏢 ").
Proof.
  apply (proj1 (render_job_empty_values 1 {[ U "title" := [] ]})).
  reflexivity.
Defined.

Lemma format_jobs_response_all_shown (jobs : list (gmap str str))
    (limit : Z) :
  jobs <> [] -> Z.of_nat (length jobs) <= limit ->
  format_jobs_response jobs limit
  = join NL (found_header (length jobs) :: concat (entries_of jobs)).
Proof.
  intros Hne Hlimit.
  unfold format_jobs_response, format_jobs_parts, over_limit.
  destruct jobs as [|job jobs]; [done |]. cbn [truthy].
  rewrite (proj2 (Z.ltb_ge _ _) Hlimit).
  rewrite slice_to_take by lia. rewrite take_ge by lia.
  by rewrite app_nil_r.
Qed.

(** When the list is not empty and has no more than [limit] jobs, every job
    is shown, in order, after the header with the total: the response has
    neither the line with the two counts nor the hint. *)
Theorem format_jobs_response_within_limit (jobs : list (gmap str str))
    (limit : Z) :
  jobs <> [] -> Z.of_nat (length jobs) <= limit ->
  format_jobs_response jobs limit
  = join NL ((U "💼 Найдено вакансий: " ++ str_of_Z (Z.of_nat (length jobs))
              ++ NL) :: concat (entries_of jobs))
  /\ length (entries_of jobs) = length jobs
  /\ forall (i : nat) job,
       jobs !! i = Some job ->
       entries_of jobs !! i = Some (render_job (Z.of_nat i + 1) job).
Proof.
  intros Hne Hlimit. split; [| split].
  - rewrite (format_jobs_response_all_shown jobs limit Hne Hlimit).
    unfold found_header. reflexivity.
  - apply entries_of_length.
  - intros i job Hjob. by rewrite entries_of_lookup, Hjob.
Qed.

Lemma format_jobs_response_within_limit_witness :
  format_jobs_response three_jobs 5
  = join NL ((U "💼 Найдено вакансий: "
              ++ str_of_Z (Z.of_nat (length three_jobs)) ++ NL)
             :: concat (entries_of three_jobs)).
Proof.
  apply (format_jobs_response_within_limit three_jobs 5);
    [discriminate | by vm_compute].
Defined.

(** ** The job search and the profile service *)

Import LinkedIn.

(** Two literal keys that differ. *)
Ltac key_ne := let E := fresh in intros E; vm_compute in E; discriminate E.

Section QueryFacts.

Lemma lower_remote_nonempty (loc : str) : lower loc = U "remote" -> loc <> [].
Proof. intros Hlower ->. vm_compute in Hlower. discriminate Hlower. Qed.

Lemma location_parts_remote (loc : str) :
  lower loc = U "remote" -> location_parts (Some loc) = [remote_modifier].
Proof.
  intros Hlower. pose proof (lower_remote_nonempty loc Hlower) as Hne.
  unfold location_parts. destruct loc as [|c loc]; [done |]. simpl get_truthy.
  unfold str_eqb. by rewrite bool_decide_eq_true_2.
Qed.

Lemma location_parts_place (loc : str) :
  loc <> [] -> lower loc <> U "remote" ->
  location_parts (Some loc) = [location_filter loc].
Proof.
  intros Hne Hlower. unfold location_parts.
  destruct loc as [|c loc]; [done |]. simpl get_truthy.
  unfold str_eqb. by rewrite bool_decide_eq_false_2.
Qed.

End QueryFacts.

(** In the query of [search_jobs] a location that is [remote] in any casing
    gives the query of the lower-case [remote], with the remote-work phrase
    after the role; any other location that is not empty gives the phrase
    that names the location. *)
Theorem build_query_location (query loc : str) (keywords : option (list str)) :
  (lower loc = U "remote" ->
   build_query query (Some loc) keywords
   = build_query query (Some (U "remote")) keywords
   /\ build_query query (Some loc) keywords
      = join (U " ") ([U "Найди вакансии для позиции " ++ query;
                       U "с возможностью удалённой работы"]
                      ++ keyword_parts keywords))
  /\ (loc <> [] -> lower loc <> U "remote" ->
      build_query query (Some loc) keywords
      = join (U " ") ([U "Найди вакансии для позиции " ++ query;
                       U "в локации " ++ loc]
                      ++ keyword_parts keywords)).
Proof.
  unfold build_query. split.
  - intros Hlower. rewrite (location_parts_remote loc Hlower).
    rewrite (location_parts_remote (U "remote")) by (by vm_compute). done.
  - intros Hne Hlower. by rewrite (location_parts_place loc Hne Hlower).
Qed.

Lemma build_query_location_witness :
  build_query (U "Frontend Developer") (Some (U "Remote")) None
  = build_query (U "Frontend Developer") (Some (U "remote")) None.
Proof.
  apply (proj1 (build_query_location (U "Frontend Developer") (U "Remote")
                  None)).
  by vm_compute.
Defined.

(** The query always begins with the fixed phrase and the role; with no
    location and no keywords, absent or empty, it is nothing more. *)
Theorem build_query_role (query : str) (location : option str)
    (keywords : option (list str)) :
  startswith (build_query query location keywords)
             (U "Найди вакансии для позиции " ++ query) = true
  /\ (get_truthy location = None -> get_truthy keywords = None ->
      build_query query location keywords
      = U "Найди вакансии для позиции " ++ query).
Proof.
  unfold build_query. split.
  - apply startswith_spec.
    set (rest := location_parts location ++ keyword_parts keywords).
    change ([U "Найди вакансии для позиции " ++ query] ++ rest)
      with ((U "Найди вакансии для позиции " ++ query) :: rest).
    destruct rest as [|p rest].
    + exists []. by rewrite app_nil_r.
    + rewrite join_cons by done. eauto.
  - unfold location_parts, keyword_parts. by intros -> ->.
Qed.

Lemma build_query_role_witness :
  build_query (U "Data Scientist") (Some []) None
  = U "Найди вакансии для позиции " ++ U "Data Scientist".
Proof.
  apply (proj2 (build_query_role (U "Data Scientist") (Some []) None));
    reflexivity.
Defined.

Section SearchFacts.
Context `{Interpreter} `{Requests}.

(** The call that [search_jobs] makes. *)
Definition search_call (query : str) (location : option str)
    (keywords : option (list str)) : exc Response :=
  requests_post (base_url ++ U "/analyze-linkedin-chat")
                (payload (build_query query location keywords)).

(** The four ways in which the call gives no reply. *)
Definition no_reply (outcome : exc Response) : Prop :=
  match outcome with
  | Raise _ => True
  | Ok response =>
      status_code response <> 200
      \/ match response_json response with
         | Raise _ => True
         | Ok (JObj data) =>
             match data !! U "reply" with
             | Some reply => json_truthy reply = false
             | None => True
             end
         | Ok _ => True
         end
  end.

Lemma search_jobs_cases (query : str) (location : option str)
    (keywords : option (list str)) :
  (no_reply (search_call query location keywords)
   /\ search_jobs query location keywords = [])
  \/ (exists response data reply,
        search_call query location keywords = Ok response
        /\ status_code response = 200
        /\ response_json response = Ok (JObj data)
        /\ data !! U "reply" = Some reply
        /\ json_truthy reply = true
        /\ search_jobs query location keywords
           = [informational_job query location reply]).
Proof.
  unfold search_jobs, search_jobs_body, no_reply.
  fold (search_call query location keywords).
  destruct (search_call query location keywords) as [response|e] eqn:Hcall;
    [| by left].
  cbn [mbind exc_bind]. destruct (Z.eqb_spec (status_code response) 200)
    as [Hstatus|Hstatus]; [| left; split; [by left | done]].
  destruct (response_json response) as [data|e] eqn:Hjson;
    [| left; split; [by right | done]].
  cbn [mbind exc_bind].
  destruct data as [| | | | |l|data]; try (left; split; [by right | done]).
  cbn [json_get mbind exc_bind].
  destruct (data !! U "reply") as [reply|] eqn:Hreply;
    [| left; split; [by right | done]].
  destruct (json_truthy reply) eqn:Htruthy.
  - right. exists response, data, reply. repeat split; done.
  - left. split; [by right | done].
Qed.

End SearchFacts.

(** [search_jobs] returns the empty list exactly when the call gives no
    reply: the POST raises, the status is not 200, the body is not JSON or
    not an object, or its [reply] is absent or falsy.  Nothing is raised to
    the caller. *)
Theorem search_jobs_empty_iff `{Interpreter} `{Requests} (query : str)
    (location : option str) (keywords : option (list str)) :
  search_jobs query location keywords = []
  <-> no_reply (search_call query location keywords).
Proof.
  destruct (search_jobs_cases query location keywords)
    as [[Hno Hempty] | (response & data & reply & Hcall & Hstatus & Hjson
                        & Hreply & Htruthy & Hjobs)].
  - by rewrite Hempty.
  - rewrite Hjobs, Hcall. unfold no_reply. rewrite Hjson, Hreply, Htruthy.
    split; [done |]. intros [? | ?]; [lia | done].
Qed.

(** When the status is 200 and the body has a truthy [reply], the result is
    one job: its title names the role searched, its location is the one
    asked for, or a fixed text when none was given, and its description is
    the reply as text. *)
Theorem search_jobs_reply `{Interpreter} `{Requests} (query : str)
    (location : option str) (keywords : option (list str))
    (response : Response) (data : gmap str json) (reply : json) :
  search_call query location keywords = Ok response ->
  status_code response = 200 ->
  response_json response = Ok (JObj data) ->
  data !! U "reply" = Some reply ->
  json_truthy reply = true ->
  exists job : gmap str str,
    search_jobs query location keywords = [job]
    /\ job !! U "title" = Some (U "Результаты поиска: " ++ query)
    /\ job !! U "company" = Some (U "LinkedIn")
    /\ job !! U "location" = Some (default (U "Не указано") (get_truthy location))
    /\ job !! U "type" = Some (U "Информация из профиля")
    /\ job !! U "description" = Some (py_str reply)
    /\ job !! U "url" = Some (U "https://www.linkedin.com/jobs/").
Proof.
  intros Hcall Hstatus Hjson Hreply Htruthy.
  exists (informational_job query location reply). split.
  - destruct (search_jobs_cases query location keywords)
      as [[Hno _] | (response' & data' & reply' & Hcall' & _ & Hjson'
                     & Hreply' & _ & Hjobs)].
    + exfalso. rewrite Hcall in Hno. unfold no_reply in Hno.
      rewrite Hjson, Hreply, Htruthy in Hno. by destruct Hno.
    + rewrite Hcall in Hcall'. injection Hcall' as <-.
      rewrite Hjson in Hjson'. injection Hjson' as <-.
      rewrite Hreply in Hreply'. by injection Hreply' as <-.
  - split; [| split; [| split; [| split; [| split]]]];
      vm_compute; reflexivity.
Qed.

(** A transport that answers every request with status 200 and the body
    given, one that answers with an error status, and one that raises. *)
Definition answering (body : json) : Requests :=
  {| requests_post := fun _ _ =>
       Ok {| status_code := 200; response_json := Ok body; text := [] |} |}.


Definition unreachable : Requests :=
  {| requests_post := fun _ _ => Raise RequestException |}.

(** An interpreter that parses nothing and prints placeholders. *)
Definition plain_interpreter : Interpreter :=
  {| py_repr := fun _ => U "<value>";
     json_loads := fun _ => Raise JSONDecodeError;
     exn_str := fun _ => U "connection refused" |}.

Definition three_openings : json :=
  JObj {[ U "reply" := JStr (U "Three openings") ]}.

Lemma search_jobs_reply_witness :
  exists job : gmap str str,
    @search_jobs plain_interpreter (answering three_openings)
      (U "Python Developer") None None = [job]
    /\ job !! U "title" = Some (U "Результаты поиска: " ++ U "Python Developer")
    /\ job !! U "company" = Some (U "LinkedIn")
    /\ job !! U "location" = Some (default (U "Не указано") (get_truthy None))
    /\ job !! U "type" = Some (U "Информация из профиля")
    /\ job !! U "description"
       = Some (@py_str plain_interpreter (JStr (U "Three openings")))
    /\ job !! U "url" = Some (U "https://www.linkedin.com/jobs/").
Proof.
  apply (@search_jobs_reply plain_interpreter (answering three_openings)
           (U "Python Developer") None None
           {| status_code := 200; response_json := Ok three_openings;
              text := [] |}
           {[ U "reply" := JStr (U "Three openings") ]}
           (JStr (U "Three openings")));
    [reflexivity | reflexivity | reflexivity | by vm_compute | by vm_compute].
Defined.

Section ProfileFacts.
Context `{Interpreter} `{Requests}.

(** The call that [get_my_profile] makes. *)
Definition profile_call : exc Response :=
  requests_post (base_url ++ U "/linkedin/profile") (JObj ∅).

(** The result of a fetch that succeeded. *)
Definition fetched_profile (profile : gmap str json) : gmap str json :=
  <[U "headline" := default (JStr []) (profile !! U "headline")]>
  (<[U "summary" := default (JStr []) (profile !! U "summary")]>
  (<[U "experience" := default (JArr []) (profile !! U "experience")]>
  (<[U "education" := default (JArr []) (profile !! U "education")]> ∅))).

Lemma get_my_profile_cases :
  (exists error, get_my_profile = failed_profile error)
  \/ (exists profile, get_my_profile = fetched_profile profile).
Proof.
  unfold get_my_profile, get_my_profile_body. fold profile_call.
  destruct profile_call as [response|e]; cbn [mbind exc_bind try_except];
    [| destruct (is_request_exception e); left; eexists; reflexivity].
  destruct (status_code response =? 200); [| left; eexists; reflexivity].
  destruct (response_json response) as [data|e];
    cbn [mbind exc_bind try_except];
    [| destruct (is_request_exception e); left; eexists; reflexivity].
  destruct data as [| | | | |l|data];
    cbn [json_get json_get_default mbind exc_bind try_except
         is_request_exception];
    [left; eexists; reflexivity .. |].
  destruct (json_truthy (default JNull (data !! U "success")));
    [| left; eexists; reflexivity].
  destruct (default (JObj ∅) (data !! U "profile")) as [| | | | |l|profile];
    cbn [json_get json_get_default mbind exc_bind try_except
         is_request_exception];
    [left; eexists; reflexivity .. |].
  right. exists profile. reflexivity.
Qed.

Lemma failed_profile_lookup (error : json) :
  failed_profile error !! U "error" = Some error
  /\ failed_profile error !! U "headline" = Some (JStr [])
  /\ failed_profile error !! U "summary" = Some (JStr [])
  /\ failed_profile error !! U "experience" = Some (JArr [])
  /\ failed_profile error !! U "education" = Some (JArr []).
Proof. split; [| split; [| split; [| split]]]; vm_compute; reflexivity. Qed.

Lemma fetched_profile_lookup (profile : gmap str json) :
  fetched_profile profile !! U "error" = None
  /\ fetched_profile profile !! U "headline"
     = Some (default (JStr []) (profile !! U "headline"))
  /\ fetched_profile profile !! U "summary"
     = Some (default (JStr []) (profile !! U "summary"))
  /\ fetched_profile profile !! U "experience"
     = Some (default (JArr []) (profile !! U "experience"))
  /\ fetched_profile profile !! U "education"
     = Some (default (JArr []) (profile !! U "education")).
Proof.
  unfold fetched_profile.
  generalize (default (JStr []) (profile !! U "headline")),
    (default (JStr []) (profile !! U "summary")),
    (default (JArr []) (profile !! U "experience")),
    (default (JArr []) (profile !! U "education")).
  intros h s ex ed.
  split; [| split; [| split; [| split]]]; vm_compute; reflexivity.
Qed.

End ProfileFacts.

(** Whatever the service answers, the result of [get_my_profile] has the
    four content keys; and when it has an [error], the content is void: the
    headline and the summary are empty strings, the experience and the
    education are empty lists. *)
Theorem get_my_profile_void_on_error `{Interpreter} `{Requests} :
  (is_Some (get_my_profile !! U "headline")
   /\ is_Some (get_my_profile !! U "summary")
   /\ is_Some (get_my_profile !! U "experience")
   /\ is_Some (get_my_profile !! U "education"))
  /\ (is_Some (get_my_profile !! U "error") ->
      get_my_profile !! U "headline" = Some (JStr [])
      /\ get_my_profile !! U "summary" = Some (JStr [])
      /\ get_my_profile !! U "experience" = Some (JArr [])
      /\ get_my_profile !! U "education" = Some (JArr [])).
Proof.
  destruct get_my_profile_cases as [[error ->] | [profile ->]].
  - destruct (failed_profile_lookup error) as (_ & -> & -> & -> & ->).
    by repeat split.
  - destruct (fetched_profile_lookup profile) as (-> & -> & -> & -> & ->).
    split; [by repeat split | by intros [? ?]].
Qed.

Lemma get_my_profile_void_on_error_witness :
  @get_my_profile plain_interpreter unreachable !! U "headline"
  = Some (JStr []).
Proof.
  apply (proj2 (@get_my_profile_void_on_error plain_interpreter unreachable)).
  exists (JStr (U "Network error: " ++ U "connection refused")).
  by vm_compute.
Defined.







Section ActionFacts.
Context `{Interpreter} `{Requests}.

(** The result of an action that failed, and the one built of a reply. *)
Definition failed_action (error : json) : gmap str json :=
  <[U "success" := JBool false]> (<[U "error" := error]> ∅).

Definition reported_action (data : gmap str json) (default_message : str)
  : gmap str json :=
  <[U "success" := default (JBool false) (data !! U "success")]>
  (<[U "message" := default (JStr default_message) (data !! U "message")]>
  (<[U "error" := default JNull (data !! U "error")]> ∅)).

Lemma post_action_cases (endpoint : str) (request : json)
    (default_message : str) :
  (exists error, post_action endpoint request default_message
                 = failed_action error)
  \/ (exists response data,
        requests_post (base_url ++ endpoint) request = Ok response
        /\ status_code response = 200
        /\ response_json response = Ok (JObj data)
        /\ post_action endpoint request default_message
           = reported_action data default_message).
Proof.
  unfold post_action.
  destruct (requests_post (base_url ++ endpoint) request)
    as [response|e] eqn:Hcall; cbn [mbind exc_bind try_except];
    [| left; eexists; reflexivity].
  destruct (Z.eqb_spec (status_code response) 200) as [Hstatus|Hstatus];
    [| left; eexists; reflexivity].
  destruct (response_json response) as [data|e] eqn:Hjson;
    cbn [mbind exc_bind try_except]; [| left; eexists; reflexivity].
  destruct data as [| | | | |l|data];
    cbn [json_get json_get_default mbind exc_bind try_except];
    [left; eexists; reflexivity .. |].
  right. exists response, data. split; [done |]. split; [done |].
  split; [done | reflexivity].
Qed.

Lemma failed_action_lookup (error : json) :
  failed_action error !! U "success" = Some (JBool false)
  /\ failed_action error !! U "error" = Some error.
Proof. split; vm_compute; reflexivity. Qed.

Lemma reported_action_lookup (data : gmap str json) (default_message : str) :
  reported_action data default_message !! U "success"
  = Some (default (JBool false) (data !! U "success"))
  /\ reported_action data default_message !! U "error"
     = Some (default JNull (data !! U "error")).
Proof.
  unfold reported_action.
  generalize (default (JBool false) (data !! U "success")),
    (default (JStr default_message) (data !! U "message")),
    (default JNull (data !! U "error")).
  intros s m e. split; vm_compute; reflexivity.
Qed.

(** What holds of both actions. *)
Lemma post_action_result (endpoint : str) (request : json)
    (default_message : str) :
  let result := post_action endpoint request default_message in
  is_Some (result !! U "success")
  /\ is_Some (result !! U "error")
  /\ (Bot.succeeded result = true ->
      exists response data,
        requests_post (base_url ++ endpoint) request = Ok response
        /\ status_code response = 200
        /\ response_json response = Ok (JObj data)
        /\ json_truthy (default (JBool false) (data !! U "success")) = true).
Proof.
  intros result. subst result.
  destruct (post_action_cases endpoint request default_message)
    as [[error ->] | (response & data & Hcall & Hstatus & Hjson & ->)];
    unfold Bot.succeeded.
  - destruct (failed_action_lookup error) as [-> ->].
    split; [done |]. split; [done |]. simpl. discriminate.
  - destruct (reported_action_lookup data default_message) as [-> ->].
    split; [done |]. split; [done |]. simpl. intros Hsuccess.
    by exists response, data.
Qed.

End ActionFacts.

(** The results of [set_linkedin_url] and of [refresh_profile] always have
    the keys [success] and [error], and [success] is truthy only when the
    service answered with status 200 and a JSON object whose [success] is
    truthy: a failed request, an error status or a body that is not an
    object is never reported as a success. *)
Theorem service_actions_report `{Interpreter} `{Requests} (linkedin_url : str) :
  (is_Some (set_linkedin_url linkedin_url !! U "success")
   /\ is_Some (set_linkedin_url linkedin_url !! U "error")
   /\ (Bot.succeeded (set_linkedin_url linkedin_url) = true ->
       exists response data,
         requests_post (base_url ++ U "/linkedin/set-url")
           (JObj (<[U "linkedin_url" := JStr linkedin_url]> ∅)) = Ok response
         /\ status_code response = 200
         /\ response_json response = Ok (JObj data)
         /\ json_truthy (default (JBool false) (data !! U "success")) = true))
  /\ (is_Some (refresh_profile !! U "success")
      /\ is_Some (refresh_profile !! U "error")
      /\ (Bot.succeeded refresh_profile = true ->
          exists response data,
            requests_post (base_url ++ U "/linkedin/refresh-profile")
              (JObj ∅) = Ok response
            /\ status_code response = 200
            /\ response_json response = Ok (JObj data)
            /\ json_truthy (default (JBool false) (data !! U "success"))
               = true)).
Proof.
  split; [apply (post_action_result (U "/linkedin/set-url"))
         | apply (post_action_result (U "/linkedin/refresh-profile"))].
Qed.

Definition done_reply : json := JObj {[ U "success" := JBool true ]}.

Lemma service_actions_report_witness :
  Bot.succeeded (@refresh_profile plain_interpreter (answering done_reply))
  = true
  /\ exists response data,
       @requests_post (answering done_reply)
         (base_url ++ U "/linkedin/refresh-profile") (JObj ∅) = Ok response
       /\ status_code response = 200
       /\ response_json response = Ok (JObj data)
       /\ json_truthy (default (JBool false) (data !! U "success")) = true.
Proof.
  split; [by vm_compute |].
  apply (proj2 (@service_actions_report plain_interpreter
                  (answering done_reply) [])).
  by vm_compute.
Defined.

(** ** Intent classification *)

Import Classify.

Section ClassifyFacts.
Context `{Interpreter} `{Pydantic} `{OpenAIClient}.

(** What the code does with the parsed arguments. *)
Definition classify_parsed (parsed : json) : IntentResult :=
  try_except (result_dict ← convert_job_params parsed;
              IntentResult_init result_dict) (fun _ => on_error).

(** The message carries a function call with arguments that are not empty. *)
Definition structured_call (user_message : str) (fc : FunctionCall) : Prop :=
  exists response choice rest,
    chat_completions_create user_message = Ok response
    /\ choices response = choice :: rest
    /\ function_call (message choice) = Some fc
    /\ arguments fc <> [].

Lemma classify_intent_structured (user_message : str) (fc : FunctionCall) :
  structured_call user_message fc ->
  classify_intent user_message
  = match json_loads (arguments fc) with
    | Ok parsed => classify_parsed parsed
    | Raise _ => on_error
    end.
Proof.
  intros (response & choice & rest & Hcall & Hchoices & Hfc & Hargs).
  unfold classify_intent, classify_intent_body, classify_parsed.
  rewrite Hcall. cbn [mbind exc_bind]. rewrite Hchoices.
  cbn [head of_option mbind exc_bind]. rewrite Hfc.
  destruct (arguments fc) as [|c args]; [done |]. cbn [truthy].
  by destruct (json_loads (c :: args)).
Qed.

(** Either the call is structured, or the result is one of the two fixed
    results. *)
Lemma classify_intent_unstructured (user_message : str) :
  (exists fc, structured_call user_message fc)
  \/ classify_intent user_message = on_error
  \/ classify_intent user_message = fallback.
Proof.
  unfold classify_intent, classify_intent_body.
  destruct (chat_completions_create user_message) as [response|e] eqn:Hcall;
    [| by right; left].
  cbn [mbind exc_bind].
  destruct (choices response) as [|choice rest] eqn:Hchoices;
    [by right; left |].
  cbn [head of_option mbind exc_bind].
  destruct (function_call (message choice)) as [fc|] eqn:Hfc;
    [| by right; right].
  destruct (arguments fc) as [|c args] eqn:Hargs; [by right; right |].
  left. exists fc, response, choice, rest. rewrite Hargs. by repeat split.
Qed.

Lemma required_fmap {A} (validate : json -> option A)
    (result_dict : gmap str json) (k : str) :
  required validate ((VJson <$> result_dict) !! k)
  = result_dict !! k ≫= validate.
Proof. rewrite lookup_fmap. by destruct (result_dict !! k). Qed.

Lemma required_converted {A} (validate : json -> option A)
    (result_dict : gmap str json) (p : JobSearchParams) (k : str) :
  k <> U "job_params" ->
  required validate
    (<[U "job_params" := VJobSearchParams p]> (VJson <$> result_dict) !! k)
  = result_dict !! k ≫= validate.
Proof.
  intros Hk. rewrite lookup_insert_ne by done. apply required_fmap.
Qed.

(** The result when the arguments parse to an object: the two required
    fields validated, and the parameters in [p]. *)
Definition validated (result_dict : gmap str json)
    (p : option JobSearchParams) : option IntentResult :=
  i ← result_dict !! U "intent" ≫= validate_str;
  c ← result_dict !! U "confidence" ≫= validate_float;
  Some {| intent := i; confidence := c; job_params := p |}.

Lemma IntentResult_init_converted (result_dict : gmap str json)
    (p : JobSearchParams) :
  IntentResult_init
    (<[U "job_params" := VJobSearchParams p]> (VJson <$> result_dict))
  = of_option ValidationError (validated result_dict (Some p)).
Proof.
  unfold IntentResult_init, validated.
  rewrite !required_converted by key_ne.
  rewrite lookup_insert_eq. reflexivity.
Qed.

Lemma IntentResult_init_plain (result_dict : gmap str json) :
  IntentResult_init (VJson <$> result_dict)
  = of_option ValidationError
      (p ← match result_dict !! U "job_params" with
           | None | Some JNull => Some None
           | Some (JObj kwargs) => Some <$> validate_JobSearchParams kwargs
           | Some _ => None
           end;
       validated result_dict p).
Proof.
  unfold IntentResult_init, validated. rewrite !required_fmap.
  rewrite lookup_fmap.
  destruct (result_dict !! U "intent" ≫= validate_str) as [i|];
    destruct (result_dict !! U "confidence" ≫= validate_float) as [c|];
    destruct (result_dict !! U "job_params") as [[| | | | | |kwargs]|];
    simpl; try reflexivity;
    by destruct (validate_JobSearchParams kwargs).
Qed.

Lemma validate_JobSearchParams_role (kwargs : gmap str json)
    (p : JobSearchParams) :
  validate_JobSearchParams kwargs = Some p ->
  kwargs !! U "role" ≫= validate_str = Some (role p).
Proof.
  unfold validate_JobSearchParams.
  destruct (kwargs !! U "role" ≫= validate_str) as [r|]; simpl; [|done].
  destruct (optional validate_str (kwargs !! U "location")); simpl; [|done].
  destruct (optional validate_str_list (kwargs !! U "keywords")); simpl;
    [|done].
  by intros [= <-].
Qed.

Lemma validate_JobSearchParams_truthy (kwargs : gmap str json)
    (p : JobSearchParams) :
  validate_JobSearchParams kwargs = Some p -> json_truthy (JObj kwargs) = true.
Proof.
  intros Hp. apply validate_JobSearchParams_role in Hp. simpl.
  destruct (size kwargs) eqn:Hsize; [| done].
  apply map_size_empty_iff in Hsize. subst kwargs.
  by rewrite lookup_empty in Hp.
Qed.

Lemma falsy_object (kwargs : gmap str json) :
  json_truthy (JObj kwargs) = false -> validate_JobSearchParams kwargs = None.
Proof.
  intros Hfalsy. destruct (validate_JobSearchParams kwargs) as [p|] eqn:Hp;
    [| done].
  apply validate_JobSearchParams_truthy in Hp. congruence.
Qed.

End ClassifyFacts.

Section ClassifyResults.
Context `{Interpreter} `{Pydantic} `{OpenAIClient}.

Lemma try_of_option (o : option IntentResult) :
  try_except (of_option ValidationError o) (fun _ => on_error)
  = default on_error o.
Proof. by destruct o. Qed.

(** The result for arguments that parse to an object, by the value of its
    [job_params]. *)
Lemma classify_parsed_object (result_dict : gmap str json) :
  classify_parsed (JObj result_dict)
  = match result_dict !! U "job_params" with
    | None | Some JNull => default on_error (validated result_dict None)
    | Some (JObj kwargs) =>
        match validate_JobSearchParams kwargs with
        | Some p => default on_error (validated result_dict (Some p))
        | None => on_error
        end
    | Some _ => on_error
    end.
Proof.
  unfold classify_parsed, convert_job_params.
  destruct (result_dict !! U "job_params") as [v|] eqn:Hfield.
  - destruct (json_truthy v) eqn:Htruthy.
    + destruct v as [| | | | | |kwargs]; try reflexivity;
        [discriminate Htruthy |].
      cbn [JobSearchParams_init].
      destruct (validate_JobSearchParams kwargs) as [p|]; [| reflexivity].
      cbn [of_option mbind exc_bind mret exc_ret].
      by rewrite IntentResult_init_converted, try_of_option.
    + cbn [mbind exc_bind mret exc_ret].
      rewrite IntentResult_init_plain, Hfield, try_of_option.
      destruct v as [| | | | | |kwargs]; try reflexivity.
      by rewrite (falsy_object kwargs Htruthy).
  - cbn [mbind exc_bind mret exc_ret].
    by rewrite IntentResult_init_plain, Hfield, try_of_option.
Qed.

Lemma classify_parsed_other (parsed : json) :
  (forall result_dict, parsed <> JObj result_dict) ->
  classify_parsed parsed = on_error.
Proof.
  intros Hother. destruct parsed; try reflexivity. by destruct (Hother o).
Qed.

Lemma validated_job_params (result_dict : gmap str json)
    (p : option JobSearchParams) :
  job_params (default on_error (validated result_dict p))
  = match validated result_dict p with Some _ => p | None => None end.
Proof.
  unfold validated.
  destruct (result_dict !! U "intent" ≫= validate_str); simpl; [|done].
  by destruct (result_dict !! U "confidence" ≫= validate_float).
Qed.

End ClassifyResults.

(** [classify_intent] returns a result whatever the model call does.  When
    the call raises, when the response has no choice, when the arguments are
    not JSON or are JSON but not an object, the result is UNKNOWN with
    confidence 0.0; when the message has no function call, or one with empty
    arguments, it is UNKNOWN with confidence 0.5.  Neither has parameters. *)
Theorem classify_intent_fallbacks `{Interpreter} `{Pydantic} `{OpenAIClient}
    (user_message : str) :
  let failed :=
    {| intent := U "UNKNOWN"; confidence := 0%float; job_params := None |} in
  let declined :=
    {| intent := U "UNKNOWN"; confidence := 0.5%float; job_params := None |} in
  (forall e, classify_intent_body user_message = Raise e ->
     classify_intent user_message = failed)
  /\ (forall e, chat_completions_create user_message = Raise e ->
        classify_intent user_message = failed)
  /\ (forall response, chat_completions_create user_message = Ok response ->
        choices response = [] -> classify_intent user_message = failed)
  /\ (forall fc e, structured_call user_message fc ->
        json_loads (arguments fc) = Raise e ->
        classify_intent user_message = failed)
  /\ (forall fc parsed, structured_call user_message fc ->
        json_loads (arguments fc) = Ok parsed ->
        (forall result_dict, parsed <> JObj result_dict) ->
        classify_intent user_message = failed)
  /\ (forall response choice rest,
        chat_completions_create user_message = Ok response ->
        choices response = choice :: rest ->
        function_call (message choice) = None
        \/ (exists fc, function_call (message choice) = Some fc
                       /\ arguments fc = []) ->
        classify_intent user_message = declined).
Proof.
  intros failed declined.
  split; [| split; [| split; [| split; [| split]]]].
  - intros e Hbody. unfold classify_intent. by rewrite Hbody.
  - intros e Hcall. unfold classify_intent, classify_intent_body.
    by rewrite Hcall.
  - intros response Hcall Hchoices.
    unfold classify_intent, classify_intent_body.
    rewrite Hcall. cbn [mbind exc_bind]. by rewrite Hchoices.
  - intros fc e Hcall Hloads.
    by rewrite (classify_intent_structured _ _ Hcall), Hloads.
  - intros fc parsed Hcall Hloads Hother.
    rewrite (classify_intent_structured _ _ Hcall), Hloads.
    by apply classify_parsed_other.
  - intros response choice rest Hcall Hchoices Hdeclined.
    unfold classify_intent, classify_intent_body.
    rewrite Hcall. cbn [mbind exc_bind]. rewrite Hchoices.
    cbn [head of_option mbind exc_bind].
    destruct Hdeclined as [-> | (fc & -> & Hargs)]; [done |].
    by rewrite Hargs.
Qed.

(** The result has parameters exactly when the message carries a function
    call whose arguments parse to an object with valid [intent] and
    [confidence] and a [job_params] object that validates, which requires a
    [role]; the parameters are the validated ones.  The value of the intent
    plays no part. *)
Theorem classify_intent_job_params `{Interpreter} `{Pydantic} `{OpenAIClient}
    (user_message : str) (p : JobSearchParams) :
  job_params (classify_intent user_message) = Some p
  <-> exists fc result_dict kwargs,
        structured_call user_message fc
        /\ json_loads (arguments fc) = Ok (JObj result_dict)
        /\ result_dict !! U "job_params" = Some (JObj kwargs)
        /\ validate_JobSearchParams kwargs = Some p
        /\ kwargs !! U "role" ≫= validate_str = Some (role p)
        /\ is_Some (result_dict !! U "intent" ≫= validate_str)
        /\ is_Some (result_dict !! U "confidence" ≫= validate_float).
Proof.
  split.
  - destruct (classify_intent_unstructured user_message)
      as [[fc Hcall] | [-> | ->]]; [| done | done].
    rewrite (classify_intent_structured _ _ Hcall).
    destruct (json_loads (arguments fc)) as [parsed|e] eqn:Hloads; [| done].
    destruct parsed as [| | | | | |result_dict]; try done.
    rewrite classify_parsed_object.
    destruct (result_dict !! U "job_params") as [[| | | | | |kwargs]|]
      eqn:Hfield; try done.
    + rewrite validated_job_params.
      by destruct (validated result_dict None).
    + destruct (validate_JobSearchParams kwargs) as [p'|] eqn:Hp; [| done].
      rewrite validated_job_params. unfold validated.
      destruct (result_dict !! U "intent" ≫= validate_str) as [i|] eqn:Hi;
        [| done].
      destruct (result_dict !! U "confidence" ≫= validate_float) as [c|]
        eqn:Hc; [| done].
      simpl. intros [= <-]. exists fc, result_dict, kwargs.
      pose proof (validate_JobSearchParams_role kwargs p' Hp) as Hrole.
      rewrite Hi, Hc.
      split; [done |]. split; [done |]. split; [done |]. split; [done |].
      split; [done |]. split; eauto.
    + rewrite validated_job_params.
      by destruct (validated result_dict None).
  - intros (fc & result_dict & kwargs & Hcall & Hloads & Hfield & Hp & _
            & [i Hi] & [c Hc]).
    rewrite (classify_intent_structured _ _ Hcall), Hloads.
    rewrite classify_parsed_object, Hfield, Hp. unfold validated.
    by rewrite Hi, Hc.
Qed.

(** A [job_params] that is there, is not [null] and is not an object that
    validates (an object without a role, the empty object, a string, a
    list) makes the whole classification the error result, however valid
    the intent and the confidence are. *)
Theorem classify_intent_job_params_invalid `{Interpreter} `{Pydantic}
    `{OpenAIClient} (user_message : str) (fc : FunctionCall)
    (result_dict : gmap str json) (v : json) :
  structured_call user_message fc ->
  json_loads (arguments fc) = Ok (JObj result_dict) ->
  result_dict !! U "job_params" = Some v ->
  match v with
  | JNull => False
  | JObj kwargs => validate_JobSearchParams kwargs = None
  | _ => True
  end ->
  classify_intent user_message
  = {| intent := U "UNKNOWN"; confidence := 0%float; job_params := None |}.
Proof.
  intros Hcall Hloads Hfield Hinvalid.
  rewrite (classify_intent_structured _ _ Hcall), Hloads.
  rewrite classify_parsed_object, Hfield.
  destruct v as [| | | | | |kwargs]; try done. by rewrite Hinvalid.
Qed.

(** When the arguments parse to an object whose [intent] and [confidence]
    validate, the result carries them as validated: the intent is whatever
    string the model gave, not only one of the three intents.  The
    parameters are absent when [job_params] is absent or [null], and the
    validated ones when it is an object that validates. *)
Theorem classify_intent_validated `{Interpreter} `{Pydantic} `{OpenAIClient}
    (user_message : str) (fc : FunctionCall) (result_dict : gmap str json)
    (i : str) (c : float) :
  structured_call user_message fc ->
  json_loads (arguments fc) = Ok (JObj result_dict) ->
  result_dict !! U "intent" ≫= validate_str = Some i ->
  result_dict !! U "confidence" ≫= validate_float = Some c ->
  (result_dict !! U "job_params" = None
   \/ result_dict !! U "job_params" = Some JNull ->
   classify_intent user_message
   = {| intent := i; confidence := c; job_params := None |})
  /\ (forall kwargs p,
        result_dict !! U "job_params" = Some (JObj kwargs) ->
        validate_JobSearchParams kwargs = Some p ->
        classify_intent user_message
        = {| intent := i; confidence := c; job_params := Some p |}).
Proof.
  intros Hcall Hloads Hi Hc.
  rewrite (classify_intent_structured _ _ Hcall), Hloads.
  rewrite classify_parsed_object. unfold validated. rewrite Hi, Hc.
  split.
  - by intros [-> | ->].
  - by intros kwargs p -> ->.
Qed.

(** *** Scenarios *)

(** Validators that take a string for [str] and a float for [float]. *)
Definition text_and_number : Pydantic :=
  {| validate_str := fun v => match v with JStr s => Some s | _ => None end;
     validate_float :=
       fun v => match v with JFloat f => Some f | _ => None end |}.

(** A model that answers with a function call, and one that answers with
    plain text. *)
Definition the_call : FunctionCall :=
  {| name := U "classify_intent"; arguments := U "{...}" |}.

Definition calling : OpenAIClient :=
  {| chat_completions_create := fun _ =>
       Ok {| choices := [ {| message := {| function_call := Some the_call |} |} ] |} |}.

Definition chatting : OpenAIClient :=
  {| chat_completions_create := fun _ =>
       Ok {| choices := [ {| message := {| function_call := None |} |} ] |} |}.

(** An interpreter for which the arguments parse to [parsed]. *)
Definition parsing (parsed : json) : Interpreter :=
  {| py_repr := fun _ => U "<value>";
     json_loads := fun _ => Ok parsed;
     exn_str := fun _ => U "error" |}.

Lemma calling_structured (user_message : str) :
  @structured_call calling user_message the_call.
Proof.
  exists {| choices := [ {| message := {| function_call := Some the_call |} |} ] |},
    {| message := {| function_call := Some the_call |} |}, [].
  split; [reflexivity |]. split; [reflexivity |]. split; [reflexivity |].
  by vm_compute.
Qed.

(** The arguments of three answers: a profile request that carries job
    parameters all the same, a job request without parameters, and a job
    request whose parameters have no role. *)
Definition profile_with_params : gmap str json :=
  <[U "intent" := JStr (U "PROFILE")]>
  (<[U "confidence" := JFloat 0.875%float]>
  (<[U "job_params" := JObj {[ U "role" := JStr (U "Developer") ]}]> ∅)).

Definition jobs_without_params : gmap str json :=
  <[U "intent" := JStr (U "JOBS")]>
  (<[U "confidence" := JFloat 0.75%float]> ∅).

Definition jobs_without_role : gmap str json :=
  <[U "intent" := JStr (U "JOBS")]>
  (<[U "confidence" := JFloat 0.75%float]>
  (<[U "job_params" := JObj {[ U "location" := JStr (U "Berlin") ]}]> ∅)).

Lemma classify_intent_fallbacks_witness :
  @classify_intent plain_interpreter text_and_number chatting (U "Привет")
  = {| intent := U "UNKNOWN"; confidence := 0.5%float; job_params := None |}.
Proof.
  pose proof (@classify_intent_fallbacks plain_interpreter text_and_number
                chatting (U "Привет")) as Hfallbacks.
  cbv zeta in Hfallbacks.
  destruct Hfallbacks as (_ & _ & _ & _ & _ & Hdeclined).
  apply (Hdeclined
           {| choices := [ {| message := {| function_call := None |} |} ] |}
           {| message := {| function_call := None |} |} []);
    [reflexivity | reflexivity | by left].
Defined.

(** A profile request with job parameters: the result has them. *)
Lemma classify_intent_job_params_witness :
  job_params (@classify_intent (parsing (JObj profile_with_params))
                text_and_number calling (U "Покажи мой профиль"))
  = Some {| role := U "Developer"; location := None; keywords := None |}.
Proof.
  apply (@classify_intent_job_params (parsing (JObj profile_with_params))
           text_and_number calling).
  exists the_call, profile_with_params, {[ U "role" := JStr (U "Developer") ]}.
  split; [apply calling_structured |]. split; [reflexivity |].
  split; [by vm_compute |]. split; [by vm_compute |].
  split; [by vm_compute |]. split; eexists; by vm_compute.
Defined.

Lemma classify_intent_job_params_invalid_witness :
  @classify_intent (parsing (JObj jobs_without_role)) text_and_number calling
    (U "Работа в Берлине")
  = {| intent := U "UNKNOWN"; confidence := 0%float; job_params := None |}.
Proof.
  apply (@classify_intent_job_params_invalid
           (parsing (JObj jobs_without_role)) text_and_number calling
           (U "Работа в Берлине") the_call jobs_without_role
           (JObj {[ U "location" := JStr (U "Berlin") ]}));
    [apply calling_structured | reflexivity | by vm_compute | by vm_compute].
Defined.

(** A job request without parameters: the intent is JOBS and the
    parameters are absent. *)
Lemma classify_intent_validated_witness :
  @classify_intent (parsing (JObj jobs_without_params)) text_and_number
    calling (U "Найди работу")
  = {| intent := U "JOBS"; confidence := 0.75%float; job_params := None |}.
Proof.
  apply (proj1 (@classify_intent_validated
                  (parsing (JObj jobs_without_params)) text_and_number
                  calling (U "Найди работу") the_call jobs_without_params
                  (U "JOBS") 0.75%float
                  (calling_structured _) eq_refl
                  ltac:(by vm_compute) ltac:(by vm_compute))).
  left. by vm_compute.
Defined.

(** ** Dispatch *)

Section DispatchFacts.
Context `{Interpreter} `{Pydantic} `{OpenAIClient} `{Requests}
        `{Bot.ProfileService}.

(** What every message starts with. *)
Definition received (user_message : str) : list Bot.event :=
  [Bot.SendAction (U "typing"); Bot.CallClassifyIntent user_message].

Lemma handle_message_dispatch (user_message : str) (trace : list Bot.event) :
  Bot.handle_message user_message trace
  = let trace' := trace ++ received user_message in
    let intent_result := classify_intent user_message in
    if str_eqb (intent intent_result) (U "PROFILE") then
      Bot._handle_profile_request trace'
    else if str_eqb (intent intent_result) (U "JOBS") then
      Bot._handle_jobs_request intent_result trace'
    else Bot._handle_unknown_request trace'.
Proof.
  unfold Bot.handle_message, Bot.emit, received. cbv zeta.
  by rewrite <- !app_assoc.
Qed.

(** The response to the jobs that [search_jobs] returns. *)
Lemma format_search_jobs (query : str) (location : option str)
    (keywords : option (list str)) :
  format_jobs_response (search_jobs query location keywords) default_limit
  = no_results
  \/ exists reply,
       format_jobs_response (search_jobs query location keywords)
                            default_limit
       = join NL (found_header 1
                  :: render_job 1 (informational_job query location reply)).
Proof.
  destruct (search_jobs_cases query location keywords)
    as [[_ ->] | (response & data & reply & _ & _ & _ & _ & _ & ->)].
  - by left.
  - right. exists reply.
    rewrite (format_jobs_response_all_shown
               [informational_job query location reply] default_limit)
      by (done || by vm_compute).
    change (entries_of [informational_job query location reply])
      with [render_job 1 (informational_job query location reply)].
    cbn [concat length]. rewrite app_nil_r. unfold found_header.
    reflexivity.
Qed.

End DispatchFacts.

(** A message classified as JOBS without parameters is answered with the
    request to name a role, and with nothing else: neither the job search
    nor the profile fetch is called. *)
Theorem handle_message_jobs_without_params `{Interpreter} `{Pydantic}
    `{OpenAIClient} `{Requests} `{Bot.ProfileService}
    (user_message : str) (trace : list Bot.event) :
  intent (classify_intent user_message) = U "JOBS" ->
  job_params (classify_intent user_message) = None ->
  Bot.handle_message user_message trace
  = trace ++ [Bot.SendAction (U "typing");
              Bot.CallClassifyIntent user_message;
              Bot.ReplyText Bot.clarification_request]
  /\ contains Bot.clarification_request (U "укажите должность или роль")
     = true.
Proof.
  intros Hintent Hparams. split; [| by vm_compute].
  rewrite handle_message_dispatch. cbv zeta. rewrite Hintent.
  replace (str_eqb (U "JOBS") (U "PROFILE")) with false by (by vm_compute).
  replace (str_eqb (U "JOBS") (U "JOBS")) with true by (by vm_compute).
  unfold Bot._handle_jobs_request. rewrite Hparams.
  unfold Bot.reply_text, Bot.emit, received. by rewrite <- app_assoc.
Qed.

(** A message classified as JOBS with parameters is answered twice: with
    the notice that the search runs, then, after one call of the job search
    with the role, the location and the keywords of the parameters, with
    either the no-results text or the header and the single entry made of
    the reply.  The line with the two counts and the hint to narrow the
    query never appear. *)
Theorem handle_message_jobs `{Interpreter} `{Pydantic} `{OpenAIClient}
    `{Requests} `{Bot.ProfileService}
    (user_message : str) (trace : list Bot.event) (p : JobSearchParams) :
  intent (classify_intent user_message) = U "JOBS" ->
  job_params (classify_intent user_message) = Some p ->
  exists response : str,
    Bot.handle_message user_message trace
    = trace ++ [Bot.SendAction (U "typing");
                Bot.CallClassifyIntent user_message;
                Bot.ReplyText (Bot.searching_text p ++ U "...");
                Bot.CallSearchJobs (role p) (location p) (keywords p);
                Bot.ReplyText response]
    /\ (response = no_results
        \/ exists reply,
             response
             = join NL (found_header 1
                        :: render_job 1 (informational_job (role p)
                                           (location p) reply))).
Proof.
  intros Hintent Hparams.
  exists (format_jobs_response
            (search_jobs (role p) (location p) (keywords p)) default_limit).
  split; [| apply format_search_jobs].
  rewrite handle_message_dispatch. cbv zeta. rewrite Hintent.
  replace (str_eqb (U "JOBS") (U "PROFILE")) with false by (by vm_compute).
  replace (str_eqb (U "JOBS") (U "JOBS")) with true by (by vm_compute).
  unfold Bot._handle_jobs_request. rewrite Hparams.
  unfold Bot.reply_text, Bot.emit, received. by rewrite <- !app_assoc.
Qed.

(** A message whose intent is neither PROFILE nor JOBS, spelled exactly so,
    is answered with the text that lists what the bot can do, and no
    service is called.  This is also what the user gets when the model call
    raises. *)
Theorem handle_message_unknown `{Interpreter} `{Pydantic} `{OpenAIClient}
    `{Requests} `{Bot.ProfileService}
    (user_message : str) (trace : list Bot.event) :
  (intent (classify_intent user_message) <> U "PROFILE" ->
   intent (classify_intent user_message) <> U "JOBS" ->
   Bot.handle_message user_message trace
   = trace ++ [Bot.SendAction (U "typing");
               Bot.CallClassifyIntent user_message;
               Bot.ReplyText Bot.capabilities])
  /\ (forall e, chat_completions_create user_message = Raise e ->
        Bot.handle_message user_message trace
        = trace ++ [Bot.SendAction (U "typing");
                    Bot.CallClassifyIntent user_message;
                    Bot.ReplyText Bot.capabilities]).
Proof.
  assert (intent (classify_intent user_message) <> U "PROFILE" ->
          intent (classify_intent user_message) <> U "JOBS" ->
          Bot.handle_message user_message trace
          = trace ++ [Bot.SendAction (U "typing");
                      Bot.CallClassifyIntent user_message;
                      Bot.ReplyText Bot.capabilities]) as Hother.
  { intros Hprofile Hjobs. rewrite handle_message_dispatch. cbv zeta.
    unfold str_eqb. rewrite !bool_decide_eq_false_2 by done.
    unfold Bot._handle_unknown_request, Bot.reply_text, Bot.emit, received.
    by rewrite <- app_assoc. }
  split; [exact Hother |].
  intros e Hcall.
  assert (classify_intent user_message = on_error) as Hresult.
  { unfold classify_intent, classify_intent_body. by rewrite Hcall. }
  apply Hother; rewrite Hresult; key_ne.
Qed.


(** ** The commands *)

(** [/seturl] calls the service only with its first word, and only when
    that word begins with the address of a LinkedIn profile: with no word
    the answer is the usage text, with another first word the answer is the
    format error, and in both the service is not called. *)
Theorem seturl_command_guards `{Interpreter} `{Requests}
    (args : list str) (trace : list Bot.event) :
  (args = [] ->
   Bot.seturl_command args trace = trace ++ [Bot.ReplyText Bot.seturl_usage])
  /\ (forall linkedin_url rest, args = linkedin_url :: rest ->
        startswith linkedin_url (U "https://www.linkedin.com/in/") = false ->
        Bot.seturl_command args trace
        = trace ++ [Bot.ReplyText Bot.seturl_bad_format])
  /\ (forall linkedin_url,
        Bot.CallSetLinkedinUrl linkedin_url ∈ Bot.seturl_command args trace ->
        Bot.CallSetLinkedinUrl linkedin_url ∈ trace
        \/ (head args = Some linkedin_url
            /\ startswith linkedin_url (U "https://www.linkedin.com/in/")
               = true)).
Proof.
  split; [by intros -> | split].
  - intros linkedin_url rest -> Hprefix. unfold Bot.seturl_command.
    unfold Bot.profile_url_prefix. by rewrite Hprefix.
  - intros linkedin_url. unfold Bot.seturl_command, Bot.reply_text, Bot.emit.
    destruct args as [|first rest].
    + rewrite elem_of_app, list_elem_of_singleton. intros [? | ?]; [by left | done].
    + unfold Bot.profile_url_prefix.
      destruct (startswith first (U "https://www.linkedin.com/in/")) eqn:Hprefix;
        cbn [negb].
      * cbv zeta. destruct (Bot.succeeded (set_linkedin_url first));
          rewrite !elem_of_app, !list_elem_of_singleton;
          intros [[[? | ?] | Hcall] | ?]; try done; try (by left);
          injection Hcall as ->; by right.
      * rewrite elem_of_app, list_elem_of_singleton.
        intros [? | ?]; [by left | done].
Qed.

(** After a [/seturl] with a profile address the user is told that the
    address is being set, the service is called once with it, and the
    answer follows the result: the confirmation when the result says
    success, and otherwise the text of the [error] of the result.  The
    result always has that key, so the text kept for a missing error is
    never shown; an error that is [null] is shown as [None]. *)
Theorem seturl_command_outcome `{Interpreter} `{Requests}
    (linkedin_url : str) (rest : list str) (trace : list Bot.event) :
  startswith linkedin_url (U "https://www.linkedin.com/in/") = true ->
  exists error : json,
    set_linkedin_url linkedin_url !! U "error" = Some error
    /\ Bot.seturl_command (linkedin_url :: rest) trace
       = trace
         ++ [Bot.ReplyText (U "⏳ Устанавливаю LinkedIn URL: " ++ linkedin_url);
             Bot.CallSetLinkedinUrl linkedin_url;
             Bot.ReplyText
               (if Bot.succeeded (set_linkedin_url linkedin_url)
                then Bot.seturl_done
                else U "❌ Не удалось установить URL: " ++ py_str error)].
Proof.
  intros Hprefix.
  destruct (post_action_result (U "/linkedin/set-url")
              (JObj (<[U "linkedin_url" := JStr linkedin_url]> ∅))
              (U "URL set")) as (_ & [error Herror] & _).
  fold (set_linkedin_url linkedin_url) in Herror.
  exists error. split; [done |].
  unfold Bot.seturl_command, Bot.profile_url_prefix. rewrite Hprefix.
  cbn [negb]. cbv zeta. unfold Bot.error_msg. rewrite Herror.
  unfold Bot.reply_text, Bot.emit.
  destruct (Bot.succeeded (set_linkedin_url linkedin_url));
    by rewrite <- !app_assoc.
Qed.

(** [/refresh] tells the user that the profile is being refreshed, calls
    the service once and answers by its result, in the same way. *)
Theorem refresh_command_outcome `{Interpreter} `{Requests}
    (trace : list Bot.event) :
  exists error : json,
    refresh_profile !! U "error" = Some error
    /\ Bot.refresh_command trace
       = trace
         ++ [Bot.ReplyText (U "🔄 Обновляю данные профиля LinkedIn...");
             Bot.CallRefreshProfile;
             Bot.ReplyText
               (if Bot.succeeded refresh_profile then Bot.refresh_done
                else U "❌ Не удалось обновить профиль: " ++ py_str error)].
Proof.
  destruct (post_action_result (U "/linkedin/refresh-profile") (JObj ∅)
              (U "Profile refreshed")) as (_ & [error Herror] & _).
  fold refresh_profile in Herror.
  exists error. split; [done |].
  unfold Bot.refresh_command. cbv zeta. unfold Bot.error_msg.
  rewrite Herror. unfold Bot.reply_text, Bot.emit.
  destruct (Bot.succeeded refresh_profile); by rewrite <- !app_assoc.
Qed.

(** ** Configuration *)





(** *** Scenarios of the dispatch *)

(** A profile service whose fetch failed. *)
Definition unauthorized : Bot.ProfileService :=
  {| Bot.get_my_profile :=
       {| error := Some (U "HTTP 401: Unauthorized");
          headline := Some []; summary := Some [];
          experience := Some []; education := Some [] |} |}.

(** The arguments of a job request with a role. *)
Definition jobs_with_role : gmap str json :=
  <[U "intent" := JStr (U "JOBS")]>
  (<[U "confidence" := JFloat 0.75%float]>
  (<[U "job_params" := JObj {[ U "role" := JStr (U "Developer") ]}]> ∅)).


Lemma handle_message_jobs_without_params_witness :
  @Bot.handle_message (parsing (JObj jobs_without_params)) text_and_number
    calling unreachable unauthorized (U "Найди работу") []
  = [] ++ [Bot.SendAction (U "typing");
           Bot.CallClassifyIntent (U "Найди работу");
           Bot.ReplyText Bot.clarification_request].
Proof.
  apply (@handle_message_jobs_without_params
           (parsing (JObj jobs_without_params)) text_and_number calling
           unreachable unauthorized (U "Найди работу") []);
    by vm_compute.
Defined.

Lemma handle_message_jobs_witness :
  exists response : str,
    @Bot.handle_message (parsing (JObj jobs_with_role)) text_and_number
      calling unreachable unauthorized (U "Найди работу") []
    = [] ++ [Bot.SendAction (U "typing");
             Bot.CallClassifyIntent (U "Найди работу");
             Bot.ReplyText
               (Bot.searching_text
                  {| role := U "Developer"; location := None;
                     keywords := None |} ++ U "...");
             Bot.CallSearchJobs (U "Developer") None None;
             Bot.ReplyText response]
    /\ (response = no_results
        \/ exists reply,
             response
             = join NL (found_header 1
                        :: render_job 1
                             (@informational_job
                                (parsing (JObj jobs_with_role))
                                (U "Developer") None reply))).
Proof.
  apply (@handle_message_jobs (parsing (JObj jobs_with_role))
           text_and_number calling unreachable unauthorized
           (U "Найди работу") []
           {| role := U "Developer"; location := None; keywords := None |});
    by vm_compute.
Defined.

Lemma handle_message_unknown_witness :
  @Bot.handle_message plain_interpreter text_and_number chatting unreachable
    unauthorized (U "Привет") []
  = [] ++ [Bot.SendAction (U "typing");
           Bot.CallClassifyIntent (U "Привет");
           Bot.ReplyText Bot.capabilities].
Proof.
  apply (proj1 (@handle_message_unknown plain_interpreter text_and_number
                  chatting unreachable unauthorized (U "Привет") []));
    intros Hintent; vm_compute in Hintent; discriminate Hintent.
Defined.


Lemma seturl_command_guards_witness :
  @Bot.seturl_command plain_interpreter unreachable
    [U "http://example.com/me"; U "now"] []
  = [] ++ [Bot.ReplyText Bot.seturl_bad_format].
Proof.
  apply (proj1 (proj2 (@seturl_command_guards plain_interpreter unreachable
                         [U "http://example.com/me"; U "now"] []))
           (U "http://example.com/me") [U "now"]);
    [reflexivity | by vm_compute].
Defined.

(** A reply with status 200 that says failure and gives no error. *)
Definition not_done_reply : json := JObj {[ U "success" := JBool false ]}.

Lemma seturl_command_outcome_witness :
  exists error : json,
    @set_linkedin_url plain_interpreter (answering not_done_reply)
      (U "https://www.linkedin.com/in/ann") !! U "error" = Some error
    /\ @Bot.seturl_command plain_interpreter (answering not_done_reply)
         [U "https://www.linkedin.com/in/ann"] []
       = [] ++ [Bot.ReplyText (U "⏳ Устанавливаю LinkedIn URL: "
                               ++ U "https://www.linkedin.com/in/ann");
                Bot.CallSetLinkedinUrl (U "https://www.linkedin.com/in/ann");
                Bot.ReplyText
                  (if Bot.succeeded
                        (@set_linkedin_url plain_interpreter
                           (answering not_done_reply)
                           (U "https://www.linkedin.com/in/ann"))
                   then Bot.seturl_done
                   else U "❌ Не удалось установить URL: "
                        ++ @py_str plain_interpreter error)].
Proof.
  apply (@seturl_command_outcome plain_interpreter
           (answering not_done_reply)
           (U "https://www.linkedin.com/in/ann") [] []).
  by vm_compute.
Defined.

(** What the user reads in that case. *)
Example seturl_command_null_error :
  @Bot.seturl_command plain_interpreter (answering not_done_reply)
    [U "https://www.linkedin.com/in/ann"] []
  = [Bot.ReplyText (U "⏳ Устанавливаю LinkedIn URL: https://www.linkedin.com/in/ann");
     Bot.CallSetLinkedinUrl (U "https://www.linkedin.com/in/ann");
     Bot.ReplyText (U "❌ Не удалось установить URL: None")].
Proof. by vm_compute. Qed.
